(** * Adaptive performance subsystem of the 3D portfolio: a shallow embedding

    Sources embedded here:
    - [src/src/utils/performanceUtils.ts]: [deviceCapabilities],
      [performanceMonitor.endFrame], [performanceOptimizer.adaptiveQuality];
    - [src/unnamed/part_011] (the zustand scene store);
    - [src/unnamed/part_008]: [LODComponent], [useFrustumCulling], [ObjectPool];
    - [src/unnamed/part_003]: [PerformanceMonitor.update] / [calculateMetrics];
    - [src/src/components/responsive/ResponsiveWrapper.tsx]: [detectCapabilities].

    JavaScript numbers are modelled as exact rationals [Q] (distances, FPS,
    timestamps); division by zero, the one place where the code guards
    against a non-finite result, is modelled explicitly. *)

From Stdlib Require Import QArith Qminmax Qround Lqa Psatz ZArith Lia List String Ascii Bool.
From Stdlib Require Import Floats Sorting.Sorted.
From stdpp Require Import base gmap strings.
Import ListNotations.
Open Scope Q_scope.

(** ** Boolean comparisons on JavaScript numbers *)

Definition qlt (x y : Q) : bool := negb (Qle_bool y x).
Definition qgt (x y : Q) : bool := qlt y x.

Lemma qlt_spec x y : qlt x y = true <-> x < y.
Proof.
  unfold qlt. rewrite negb_true_iff. split.
  - intros H. apply Qnot_le_lt. intros Hle. apply Qle_bool_iff in Hle. congruence.
  - intros H. destruct (Qle_bool y x) eqn:E; [|reflexivity].
    apply Qle_bool_iff in E. exfalso. apply (Qlt_not_le x y); assumption.
Qed.

Lemma qlt_false x y : qlt x y = false <-> y <= x.
Proof.
  unfold qlt. rewrite negb_false_iff. apply Qle_bool_iff.
Qed.

(** ** Quality tiers: ['low' | 'medium' | 'high'] *)

Inductive Quality := low | medium | high.

Definition Quality_eqb (a b : Quality) : bool :=
  match a, b with
  | low, low | medium, medium | high, high => true
  | _, _ => false
  end.

(** One-step adjacency of tiers: never [low] next to [high]. *)
Definition no_jump (a b : Quality) : bool :=
  match a, b with
  | low, high | high, low => false
  | _, _ => true
  end.

(** ** [performanceOptimizer.adaptiveQuality] (performanceUtils.ts 229-249) *)

Module AdaptiveQuality.

Record t := mk { current : Quality; target : Q; tolerance : Q }.

(** The object literal: [current: 'medium', target: 60, tolerance: 5]. *)
Definition init : t := mk medium 60 5.

(** [update()] with [fps = performanceMonitor.getFPS()] passed in. *)
Definition update (self : t) (fps : Q) : t :=
  let cur :=
    if qlt fps (target self - tolerance self) then
      (* Reduce quality *)
      match current self with
      | high => medium
      | medium => low
      | low => low
      end
    else if qgt fps (target self + tolerance self) then
      (* Increase quality *)
      match current self with
      | low => medium
      | medium => high
      | high => high
      end
    else current self in
  mk cur (target self) (tolerance self).

(** Tier sequence produced by feeding a list of FPS samples. *)
Fixpoint run (self : t) (fpss : list Q) : list Quality :=
  match fpss with
  | [] => [current self]
  | f :: rest => current self :: run (update self f) rest
  end.

End AdaptiveQuality.

(** ** The scene store (src/unnamed/part_011) *)

Module SceneStore.

Inductive CameraMode := first_person | third_person.

Definition vec3 := (Q * Q * Q)%type.

Record PlayerState := mkPlayer {
  position : vec3; rotation : vec3; velocity : vec3;
  isMoving : bool; isJumping : bool; cameraMode : CameraMode }.

Record PerformanceState := mkPerf {
  fps : Q; quality : Quality; autoQuality : bool }.

Record UIState := mkUI {
  showHUD : bool; showMenu : bool; showLoading : bool;
  loadingProgress : Q; activeHologram : option string; pointerLocked : bool }.

(** The data part of [SceneState]; the action members never change. *)
Record SceneState := mkScene {
  player : PlayerState; performance : PerformanceState; ui : UIState }.

(** What an updater passed to zustand's [set] returns: some top-level keys. *)
Record Partial := mkPartial {
  p_player : option PlayerState;
  p_performance : option PerformanceState;
  p_ui : option UIState }.

Definition only_performance (p : PerformanceState) : Partial :=
  mkPartial None (Some p) None.

(** [set(fn)]: [Object.assign({}, state, fn(state))], a shallow merge. *)
Definition set (fn : SceneState -> Partial) (state : SceneState) : SceneState :=
  let part := fn state in
  mkScene (default (player state) (p_player part))
          (default (performance state) (p_performance part))
          (default (ui state) (p_ui part)).

Definition initialPlayerState : PlayerState :=
  mkPlayer (0, 2, 10) (0, 0, 0) (0, 0, 0) false false first_person.

Definition initialPerformanceState : PerformanceState :=
  mkPerf 60 high true.

Definition initialUIState : UIState :=
  mkUI true false true 0 None false.

Definition initialState : SceneState :=
  mkScene initialPlayerState initialPerformanceState initialUIState.

(** [setFPS]: [newState.performance] is a fresh spread of
    [state.performance], so the quality assignments do not alias the old
    state. *)
Definition setFPS_partial (fps_ : Q) (state : SceneState) : Partial :=
  let p := performance state in
  let q :=
    if autoQuality p then
      if qlt fps_ 30 && Quality_eqb (quality p) high then medium
      else if qlt fps_ 20 && Quality_eqb (quality p) medium then low
      else if qgt fps_ 50 && Quality_eqb (quality p) medium then high
      else if qgt fps_ 40 && Quality_eqb (quality p) low then medium
      else quality p
    else quality p in
  only_performance (mkPerf fps_ q (autoQuality p)).

Definition setFPS (fps_ : Q) : SceneState -> SceneState := set (setFPS_partial fps_).

Definition setQuality (q : Quality) : SceneState -> SceneState :=
  set (fun state => let p := performance state in
        only_performance (mkPerf (fps p) q (autoQuality p))).

Definition setAutoQuality (a : bool) : SceneState -> SceneState :=
  set (fun state => let p := performance state in
        only_performance (mkPerf (fps p) (quality p) a)).

(** Names of the actions the store object defines (part_011 lines 88-197). *)
Definition actions : list string :=
  ["setPlayerPosition"; "setPlayerRotation"; "setPlayerVelocity";
   "setPlayerMoving"; "setPlayerJumping"; "setCameraMode";
   "setFPS"; "setQuality"; "setAutoQuality";
   "setShowHUD"; "setShowMenu"; "setShowLoading"; "setLoadingProgress";
   "setActiveHologram"; "setPointerLocked";
   "resetPlayer"; "toggleMenu"; "toggleHUD"]%string.

(** Destructuring [const { name } = useSceneStore()]: [undefined] when the
    store has no such member. *)
Definition has_action (name : string) : bool :=
  existsb (String.eqb name) actions.

(** Tier sequence of the store when [setFPS] is fed a list of samples. *)
Fixpoint run_fps (s : SceneState) (fpss : list Q) : list Quality :=
  match fpss with
  | [] => [quality (performance s)]
  | f :: rest => quality (performance s) :: run_fps (setFPS f s) rest
  end.

End SceneStore.

(** ** [LODComponent] (src/unnamed/part_008 lines 126-166) *)

Module LOD.

(** [performance.quality === 'high' ? 1.2 : ... 'medium' ? 1.0 : 0.8] *)
Definition qualityMultiplier (q : Quality) : Q :=
  match q with
  | high => 6 # 5
  | medium => 1
  | low => 4 # 5
  end.

(** [for (i...) if (distance > adjustedDistances[i]) newLOD = i + 1;] *)
Fixpoint scan (distance : Q) (adj : list Q) (i acc : Z) : Z :=
  match adj with
  | [] => acc
  | d :: rest => scan distance rest (i + 1) (if qgt distance d then (i + 1)%Z else acc)
  end.

Definition naiveLOD (distance : Q) (adj : list Q) : Z := scan distance adj 0 0.

(** JavaScript [arr[i]]: [undefined] for a negative or too large index. *)
Definition at_z (l : list Q) (i : Z) : option Q :=
  if (i <? 0)%Z then None else nth_error l (Z.to_nat i).

(** One [useFrame] callback on a mounted group: the committed level after
    the frame, given [currentLOD] before it and the camera distance. *)
Definition frame (quality : Quality) (distances : list Q) (hysteresis : Q)
    (nchildren : Z) (currentLOD : Z) (distance : Q) : Z :=
  let adjustedDistances := map (fun d => d * qualityMultiplier quality) distances in
  let newLOD := naiveLOD distance adjustedDistances in
  if (newLOD =? currentLOD)%Z then currentLOD
  else
    let len := Z.of_nat (length adjustedDistances) in
    let idx := Z.min newLOD (len - 1) in
    let threshold :=
      match at_z adjustedDistances idx with
      | Some t => t
      | None => default 0 (at_z adjustedDistances (len - 1))
      end in
    let hystThreshold :=
      if (currentLOD <? newLOD)%Z then threshold * (1 + hysteresis)
      else threshold * (1 - hysteresis) in
    if ((currentLOD <? newLOD)%Z && qgt distance hystThreshold)
       || ((newLOD <? currentLOD)%Z && qlt distance hystThreshold)
    then Z.min newLOD (nchildren - 1)
    else currentLOD.

(** Committed levels over a sequence of frames ([useState<number>(0)] is
    the level before the first frame). *)
Fixpoint run (quality : Quality) (distances : list Q) (hysteresis : Q)
    (nchildren : Z) (cur : Z) (ds : list Q) : list Z :=
  match ds with
  | [] => [cur]
  | d :: rest =>
      cur :: run quality distances hysteresis nchildren
                 (frame quality distances hysteresis nchildren cur d) rest
  end.

Definition initialLOD : Z := 0.

End LOD.

(** ** Completion of a JavaScript computation: a value or a thrown error *)

Inductive outcome (A : Type) :=
| Normal (a : A)
| Throw (e : string).
Arguments Normal {A} a.
Arguments Throw {A} e.

(** ** [ObjectPool<T>] (src/unnamed/part_008 lines 300-328) *)

Module Pool.
Section Pool.

Context {T : Type}.
(** [createFn] and [resetFn]; [resetFn] updates [obj] in place, which is
    rendered as returning the object after the reset, or throwing. *)
Context (createFn : T) (resetFn : T -> outcome T).

(** The private array [pool] is the state; results may be thrown. *)
Definition M (A : Type) := list T -> outcome A * list T.

Definition ret {A} (a : A) : M A := fun s => (Normal a, s).

Definition bind {A B} (m : M A) (k : A -> M B) : M B :=
  fun s => match m s with
           | (Normal a, s') => k a s'
           | (Throw e, s') => (Throw e, s')
           end.

(** [try { m } catch { h }] *)
Definition try_catch {A} (m : M A) (h : M A) : M A :=
  fun s => match m s with
           | (Throw _, s') => h s'
           | r => r
           end.

Definition lift {A} (r : outcome A) : M A := fun s => (r, s).

(** [this.pool.push(obj)] *)
Definition push (x : T) : M unit := fun s => (Normal tt, s ++ [x]).

(** [get()]: [pool.length > 0 ? pool.pop() : createFn()] *)
Definition get : M T :=
  fun s => match rev s with
           | x :: r => (Normal x, rev r)
           | [] => (Normal createFn, s)
           end.

(** [release(obj)]: [try { resetFn(obj); pool.push(obj); } catch {}] *)
Definition release (obj : T) : M unit :=
  try_catch (bind (lift (resetFn obj)) push) (ret tt).

(** [clear()]: [pool.length = 0] *)
Definition clear : M unit := fun _ => (Normal tt, []).

End Pool.
End Pool.

(** ** [useFrustumCulling] (src/unnamed/part_008 lines 268-296)

    The three.js primitives are parameters: the world-space transform of a
    point, [Frustum.intersectsSphere] and [BufferGeometry.computeBoundingSphere]
    (which in three.js always leaves a sphere on the geometry). Meshes
    refer to their geometry by key; the [boundingSphere] cached on each
    geometry object is a finite map from geometry keys. *)

Module Culling.

Record Sphere {Vec3 : Type} := mkSphere { center : Vec3; radius : Q }.
Arguments Sphere : clear implicits.

Record Object3D {Mat4 : Type} := mkObject {
  otype : string;
  geometry : positive;
  matrixWorld : Mat4;
  scale : Q * Q * Q;
  visible : bool }.
Arguments Object3D : clear implicits.

Section Culling.

Context {Vec3 Mat4 Frustum GeomData : Type}.
Context (applyMatrix4 : Vec3 -> Mat4 -> Vec3).
Context (intersectsSphere : Frustum -> Sphere Vec3 -> bool).
Context (computeBoundingSphere : GeomData -> Sphere Vec3).
(** Vertex data of each geometry: never changed by the culler. *)
Context (geomData : positive -> GeomData).

(** [Math.max(mesh.scale.x, mesh.scale.y, mesh.scale.z)] *)
Definition maxScale (s : Q * Q * Q) : Q :=
  let '(x, y, z) := s in Qmax x (Qmax y z).

(** [if (!geom.boundingSphere) geom.computeBoundingSphere();
     const sphere = geom.boundingSphere;] *)
Definition boundingSphere (cache : gmap positive (Sphere Vec3)) (g : positive) : gmap positive (Sphere Vec3) * Sphere Vec3 :=
  match cache !! g with
  | Some s => (cache, s)
  | None => let s := computeBoundingSphere (geomData g) in (<[g := s]> cache, s)
  end.

(** The body of the [scene.traverse] callback for one object. *)
Definition visit (fr : Frustum) (cache : gmap positive (Sphere Vec3)) (o : Object3D Mat4)
    : gmap positive (Sphere Vec3) * Object3D Mat4 :=
  if String.eqb (otype o) "Mesh" then
    let '(cache', sphere) := boundingSphere cache (geometry o) in
    let worldCenter := applyMatrix4 (center sphere) (matrixWorld o) in
    let worldSphere := mkSphere _ worldCenter (radius sphere * maxScale (scale o)) in
    (cache', mkObject _ (otype o) (geometry o) (matrixWorld o) (scale o)
                        (intersectsSphere fr worldSphere))
  else (cache, o).

(** One [useFrame] callback: the frustum [fr] is built from the camera,
    then the scene's objects are visited in traversal order. *)
Fixpoint cull (fr : Frustum) (cache : gmap positive (Sphere Vec3)) (objs : list (Object3D Mat4))
    : gmap positive (Sphere Vec3) * list (Object3D Mat4) :=
  match objs with
  | [] => (cache, [])
  | o :: rest =>
      let '(cache1, o') := visit fr cache o in
      let '(cache2, rest') := cull fr cache1 rest in
      (cache2, o' :: rest')
  end.

Definition visibles (objs : list (Object3D Mat4)) : list bool := map visible objs.

End Culling.
End Culling.

(** ** [PerformanceMonitor] frame timer (src/unnamed/part_003 lines 55-215) *)

Module FrameTimer.

(** A JavaScript number where it can stop being finite. *)
Inductive number := Fin (q : Q) | PosInf | NegInf | NaN.

(** [x / y] on finite operands. *)
Definition js_div (x y : Q) : number :=
  if Qeq_bool y 0 then
    if qlt 0 x then PosInf else if qlt x 0 then NegInf else NaN
  else Fin (x / y).

(** [Math.round]: [floor(x + 0.5)] on finite numbers. *)
Definition js_round (n : number) : number :=
  match n with
  | Fin q => Fin (inject_Z (Qfloor (q + (1 # 2))))
  | other => other
  end.

(** The fields of the monitor that the timer touches ([memoryUsage],
    [drawCalls] and the like are left out; the callbacks only read a
    snapshot). *)
Record State := mkState {
  fps : number;          (* this.metrics.fps *)
  frameTime : Q;         (* this.metrics.frameTime *)
  frameCount : Z;
  lastTime : Q;
  frameTimes : list Q;
  running : bool }.

(** [new PerformanceMonitor()] at time [now]: metrics start at 0. *)
Definition construct (now : Q) : State := mkState (Fin 0) 0 0 now [] false.

(** [start()] in a browser at time [now]. *)
Definition start (now : Q) (s : State) : State :=
  if running s then s else mkState (fps s) (frameTime s) 0 now [] true.

(** [calculateMetrics()] *)
Definition calculateMetrics (s : State) : State :=
  let sum := fold_left Qplus (frameTimes s) 0 in
  let len := length (frameTimes s) in
  let avgFrameTime := if (len =? 0)%nat then 16 else sum / inject_Z (Z.of_nat len) in
  let fps_ := if qgt avgFrameTime 0 then js_div 1000 avgFrameTime else Fin 0 in
  mkState (js_round fps_) avgFrameTime (frameCount s) (lastTime s) (frameTimes s) (running s).

(** [update()] run by the animation frame at time [now]. *)
Definition update (now : Q) (s : State) : State :=
  if negb (running s) then s
  else
    let delta := Qmax 0 (now - lastTime s) in
    let pushed := frameTimes s ++ [delta] in
    let window := if (120 <? length pushed)%nat then tl pushed else pushed in
    let count := (frameCount s + 1)%Z in
    let s' := mkState (fps s) (frameTime s) count now window (running s) in
    if ((count mod 30 =? 0)%Z && (0 <? length window)%nat) then calculateMetrics s'
    else s'.

(** Frames at the given timestamps (any order, repeats allowed). *)
Definition run (s : State) (ts : list Q) : State :=
  fold_left (fun st t => update t st) ts s.

(** The delta recorded by the latest frame. *)
Definition newest (s : State) : option Q := hd_error (rev (frameTimes s)).

End FrameTimer.

(** ** Capability probing ([deviceCapabilities] in performanceUtils.ts,
    [BrowserCompatibilityChecker.checkWebGLSupport] in browserCompatibility.ts,
    [detectCapabilities] in ResponsiveWrapper.tsx) *)

Module Probe.

(** *** Strings: [toLowerCase] and the user-agent regular expressions *)

Definition lower_ascii (c : ascii) : ascii :=
  let n := nat_of_ascii c in
  if ((65 <=? n) && (n <=? 90))%nat then ascii_of_nat (n + 32) else c.

Fixpoint toLowerCase (s : string) : string :=
  match s with
  | EmptyString => EmptyString
  | String c rest => String (lower_ascii c) (toLowerCase rest)
  end.

(** [s.includes(pat)] *)
Fixpoint includes (s pat : string) : bool :=
  String.prefix pat s ||
  match s with
  | EmptyString => false
  | String _ rest => includes rest pat
  end.

(** [/android|webos|iphone|ipad|ipod|blackberry|iemobile|opera mini/i] *)
Definition isMobileRe (ua : string) : bool :=
  existsb (includes ua)
    ["android"; "webos"; "iphone"; "ipad"; "ipod"; "blackberry"; "iemobile"; "opera mini"]%string.

(** [/android(?!.*mobile)/i]: an occurrence of "android" not followed by
    "mobile" (user agents hold no line breaks, which [.] would not cross). *)
Fixpoint androidNoMobile (s : string) : bool :=
  (String.prefix "android" s
   && negb (includes (substring 7 (String.length s - 7) s) "mobile"))
  || match s with
     | EmptyString => false
     | String _ rest => androidNoMobile rest
     end.

Definition isTabletRe (ua : string) : bool :=
  includes ua "ipad" || androidNoMobile ua.

Inductive DeviceType := mobile | tablet | desktop.

(** *** The environment probed *)

(** What [canvas.getContext(kind)] gives on a canvas that has no context yet. *)
Record GLInfo := mkGL {
  maxTextureSize : Z;
  maxVertexAttribs : Z;
  supportedExtensions : list string;
  (* [getParameter(UNMASKED_RENDERER_WEBGL)] when the
     [WEBGL_debug_renderer_info] extension is exposed *)
  debugRenderer : option string }.

Inductive CtxResult := CtxThrows | CtxNull | CtxOk (gl : GLInfo).

Record Env := mkEnv {
  userAgent : string;
  contextSupport : string -> CtxResult;
  reducedMotion : bool;
  innerWidth : Q;
  innerHeight : Q;
  (* [connection.effectiveType || connection.type || ''] when
     [navigator.connection] (or a vendor variant) exists *)
  connectionType : option string }.

(** A canvas: the context mode it got on its first successful [getContext]. *)
Definition Canvas := option (string * GLInfo).

(** [canvas.getContext(kind)]. Per the HTML canvas rules, once a canvas has
    a context of one kind, asking for another kind returns [null]. *)
Definition getContext (env : Env) (c : Canvas) (kind : string)
    : outcome (option GLInfo) * Canvas :=
  match c with
  | Some (mode, gl) => (Normal (if String.eqb mode kind then Some gl else None), c)
  | None =>
      match contextSupport env kind with
      | CtxThrows => (Throw "getContext", c)
      | CtxNull => (Normal None, c)
      | CtxOk gl => (Normal (Some gl), Some (kind, gl))
      end
  end.

(** [!!x] on a context that may be [null]. *)
Definition isSome {A} (o : option A) : bool :=
  match o with Some _ => true | None => false end.

(** *** [deviceCapabilities] (performanceUtils.ts lines 2-99) *)

Definition getDeviceType (env : Env) : DeviceType :=
  let ua := toLowerCase (userAgent env) in
  if isTabletRe ua then tablet
  else if isMobileRe ua then mobile
  else desktop.

Record WebGLSupport := mkWebGL {
  webgl1 : bool; webgl2 : bool;
  maxTex : Z; maxAttribs : Z; extensions : list string }.

(** [getWebGLSupport()]: both contexts are requested on one canvas, with
    no [try]. *)
Definition getWebGLSupport (env : Env) : outcome WebGLSupport :=
  let canvas : Canvas := None in
  match getContext env canvas "webgl" with
  | (Throw e, _) => Throw e
  | (Normal gl1, canvas1) =>
      match getContext env canvas1 "webgl2" with
      | (Throw e, _) => Throw e
      | (Normal gl2, _) =>
          let gl := match gl2 with Some g => Some g | None => gl1 end in
          Normal (match gl with
                  | Some g => mkWebGL (isSome gl1) (isSome gl2) (maxTextureSize g)
                                      (maxVertexAttribs g) (supportedExtensions g)
                  | None => mkWebGL (isSome gl1) (isSome gl2) 0 0 []
                  end)
      end
  end.

(** [getPerformanceTier()] on a fresh canvas. *)
Definition getPerformanceTier (env : Env) : outcome Quality :=
  let canvas : Canvas := None in
  let fallback :=
    match getDeviceType env with
    | desktop => medium
    | tablet => medium
    | mobile => low
    end in
  let classify (gl : GLInfo) : Quality :=
    match debugRenderer gl with
    | Some r =>
        let renderer := toLowerCase r in
        if includes renderer "nvidia" && (includes renderer "rtx" || includes renderer "gtx")
        then high
        else if includes renderer "intel" || includes renderer "amd" then medium
        else fallback
    | None => fallback
    end in
  match getContext env canvas "webgl" with
  | (Throw e, _) => Throw e
  | (Normal (Some gl), _) => Normal (classify gl)
  | (Normal None, canvas1) =>
      match getContext env canvas1 "experimental-webgl" with
      | (Throw e, _) => Throw e
      | (Normal None, _) => Normal low
      | (Normal (Some gl), _) => Normal (classify gl)
      end
  end.

(** *** [BrowserCompatibilityChecker.checkWebGLSupport] (browserCompatibility.ts
    lines 123-180, browser environment): each [getContext] is wrapped in
    [try]/[catch]. *)
Definition checkWebGLSupport (env : Env) : WebGLSupport :=
  let canvas : Canvas := None in
  let '(gl2, canvas1) :=
    match getContext env canvas "webgl2" with
    | (Normal g, c) => (g, c)
    | (Throw _, c) => (None, c)
    end in
  let gl1 :=
    match getContext env canvas1 "webgl" with
    | (Normal (Some g), _) => Some g
    | (Normal None, c) =>
        match getContext env c "experimental-webgl" with
        | (Normal g, _) => g
        | (Throw _, _) => None
        end
    | (Throw _, _) => None
    end in
  let gl := match gl2 with Some g => Some g | None => gl1 end in
  match gl with
  | Some g => mkWebGL (isSome gl1) (isSome gl2) (maxTextureSize g)
                      (maxVertexAttribs g) (supportedExtensions g)
  | None => mkWebGL (isSome gl1) (isSome gl2) 0 0 []
  end.

(** *** [ResponsiveWrapper] (ResponsiveWrapper.tsx lines 12-161) *)

Inductive ConnectionSpeed := slow | medium_speed | fast.

Definition detectConnectionSpeed (env : Env) : ConnectionSpeed :=
  match connectionType env with
  | None => fast
  | Some t =>
      if String.eqb t "slow-2g" || String.eqb t "2g" then slow
      else if String.eqb t "3g" then medium_speed
      else fast
  end.

Record DeviceInfo := mkInfo {
  type : DeviceType;
  webglSupport : WebGLSupport;
  performanceTier : Quality;
  screenWidth : Q;
  screenHeight : Q;
  prefersReducedMotion : bool;
  connectionSpeed : ConnectionSpeed }.

Definition canRun3DExperience (info : DeviceInfo) : bool :=
  if negb (webgl1 (webglSupport info)) then false
  else if (maxTex (webglSupport info) <? 1024)%Z then false
  else match type info, performanceTier info with
       | mobile, low => false
       | _, _ =>
           if qlt (screenWidth info) 480 || qlt (screenHeight info) 320 then false
           else true
       end.

(** [const { setPerformance } = useSceneStore()]: the store declares no
    member of that name (see [SceneStore.actions]), so this is [undefined]. *)
Definition setPerformance_member
    : option (Quality -> Q -> SceneStore.SceneState -> SceneStore.SceneState) := None.

(** [try { setPerformance({ quality, fps: 60 }) } catch { }] *)
Definition applySetPerformance (q : Quality) (st : SceneStore.SceneState)
    : SceneStore.SceneState :=
  match setPerformance_member with
  | Some f => f q 60 st
  | None => st   (* TypeError: setPerformance is not a function; caught *)
  end.

(** React state of the wrapper after [detectCapabilities] settles. *)
Record WrapperState := mkWrapper {
  deviceInfo : option DeviceInfo;
  canRun3D : bool;
  isLoading : bool;
  store : SceneStore.SceneState }.

(** [detectCapabilities()] for a mounted wrapper: its body sits in a
    [try]; the [catch] leaves [deviceInfo] at [null]. *)
Definition detectCapabilities (env : Env) (st : SceneStore.SceneState) : WrapperState :=
  let failed := mkWrapper None false false st in
  let type_ := getDeviceType env in
  match getWebGLSupport env with
  | Throw _ => failed
  | Normal webgl =>
      match getPerformanceTier env with
      | Throw _ => failed
      | Normal tier =>
          let info := mkInfo type_ webgl tier (innerWidth env) (innerHeight env)
                             (reducedMotion env) (detectConnectionSpeed env) in
          let can3D := canRun3DExperience info in
          mkWrapper (Some info) can3D false
                    (applySetPerformance (if can3D then tier else low) st)
      end
  end.

(** The spec's [graphicsTier] read off the two flags the code reports. *)
Inductive GraphicsTier := gt_none | gt_basic | gt_advanced.

Definition graphicsTier (w : WebGLSupport) : GraphicsTier :=
  if webgl2 w then gt_advanced else if webgl1 w then gt_basic else gt_none.

End Probe.

(** ** Reading of the spec used by the tier claims *)

(** The spec's one-step moves of section 4.3, written from its words. *)
Definition spec_step_down (q : Quality) : Quality :=
  match q with high => medium | medium => low | low => low end.

Definition spec_step_up (q : Quality) : Quality :=
  match q with low => medium | medium => high | high => high end.

(** Adjacent tiers of a tier sequence are never [low] next to [high]. *)
Fixpoint no_jumps (l : list Quality) : bool :=
  match l with
  | a :: (b :: _) as rest => no_jump a b && no_jumps rest
  | _ => true
  end.

(** Tier sequence of any tier-holding state fed a list of samples. *)
Fixpoint trace {S : Type} (get : S -> Quality) (step : S -> Q -> S)
    (s : S) (xs : list Q) : list Quality :=
  match xs with
  | [] => [get s]
  | x :: rest => get s :: trace get step (step s x) rest
  end.

(** ** The other actions of the scene store (src/unnamed/part_011 lines 88-197) *)

Module StoreActions.
Import SceneStore.

Definition only_player (p : PlayerState) : Partial := mkPartial (Some p) None None.
Definition only_ui (u : UIState) : Partial := mkPartial None None (Some u).

(** Player actions: [set(state => ({ player: { ...state.player, key } }))] *)
Definition setPlayerPosition (position_ : vec3) : SceneState -> SceneState :=
  set (fun state => let p := player state in
        only_player (mkPlayer position_ (rotation p) (velocity p)
                              (isMoving p) (isJumping p) (cameraMode p))).

Definition setPlayerRotation (rotation_ : vec3) : SceneState -> SceneState :=
  set (fun state => let p := player state in
        only_player (mkPlayer (position p) rotation_ (velocity p)
                              (isMoving p) (isJumping p) (cameraMode p))).

Definition setPlayerVelocity (velocity_ : vec3) : SceneState -> SceneState :=
  set (fun state => let p := player state in
        only_player (mkPlayer (position p) (rotation p) velocity_
                              (isMoving p) (isJumping p) (cameraMode p))).

Definition setPlayerMoving (isMoving_ : bool) : SceneState -> SceneState :=
  set (fun state => let p := player state in
        only_player (mkPlayer (position p) (rotation p) (velocity p)
                              isMoving_ (isJumping p) (cameraMode p))).

Definition setPlayerJumping (isJumping_ : bool) : SceneState -> SceneState :=
  set (fun state => let p := player state in
        only_player (mkPlayer (position p) (rotation p) (velocity p)
                              (isMoving p) isJumping_ (cameraMode p))).

Definition setCameraMode (cameraMode_ : CameraMode) : SceneState -> SceneState :=
  set (fun state => let p := player state in
        only_player (mkPlayer (position p) (rotation p) (velocity p)
                              (isMoving p) (isJumping p) cameraMode_)).

(** UI actions: [set(state => ({ ui: { ...state.ui, key } }))] *)
Definition setShowHUD (showHUD_ : bool) : SceneState -> SceneState :=
  set (fun state => let u := ui state in
        only_ui (mkUI showHUD_ (showMenu u) (showLoading u) (loadingProgress u)
                      (activeHologram u) (pointerLocked u))).

Definition setShowMenu (showMenu_ : bool) : SceneState -> SceneState :=
  set (fun state => let u := ui state in
        only_ui (mkUI (showHUD u) showMenu_ (showLoading u) (loadingProgress u)
                      (activeHologram u) (pointerLocked u))).

Definition setShowLoading (showLoading_ : bool) : SceneState -> SceneState :=
  set (fun state => let u := ui state in
        only_ui (mkUI (showHUD u) (showMenu u) showLoading_ (loadingProgress u)
                      (activeHologram u) (pointerLocked u))).

Definition setLoadingProgress (loadingProgress_ : Q) : SceneState -> SceneState :=
  set (fun state => let u := ui state in
        only_ui (mkUI (showHUD u) (showMenu u) (showLoading u) loadingProgress_
                      (activeHologram u) (pointerLocked u))).

Definition setActiveHologram (activeHologram_ : option string) : SceneState -> SceneState :=
  set (fun state => let u := ui state in
        only_ui (mkUI (showHUD u) (showMenu u) (showLoading u) (loadingProgress u)
                      activeHologram_ (pointerLocked u))).

Definition setPointerLocked (pointerLocked_ : bool) : SceneState -> SceneState :=
  set (fun state => let u := ui state in
        only_ui (mkUI (showHUD u) (showMenu u) (showLoading u) (loadingProgress u)
                      (activeHologram u) pointerLocked_)).

(** Utility actions *)
Definition resetPlayer : SceneState -> SceneState :=
  set (fun _ => only_player initialPlayerState).

Definition toggleMenu : SceneState -> SceneState :=
  set (fun state => let u := ui state in
        only_ui (mkUI (showHUD u) (negb (showMenu u)) (showLoading u) (loadingProgress u)
                      (activeHologram u) (pointerLocked u))).

Definition toggleHUD : SceneState -> SceneState :=
  set (fun state => let u := ui state in
        only_ui (mkUI (negb (showHUD u)) (showMenu u) (showLoading u) (loadingProgress u)
                      (activeHologram u) (pointerLocked u))).

(** A call of one of the 18 actions, with its argument. *)
Inductive Action :=
| SetPlayerPosition (v : vec3) | SetPlayerRotation (v : vec3)
| SetPlayerVelocity (v : vec3) | SetPlayerMoving (b : bool)
| SetPlayerJumping (b : bool) | SetCameraMode (m : CameraMode)
| SetFPS (f : Q) | SetQuality (q : Quality) | SetAutoQuality (b : bool)
| SetShowHUD (b : bool) | SetShowMenu (b : bool) | SetShowLoading (b : bool)
| SetLoadingProgress (p : Q) | SetActiveHologram (h : option string)
| SetPointerLocked (b : bool)
| ResetPlayer | ToggleMenu | ToggleHUD.

Definition dispatch (a : Action) : SceneState -> SceneState :=
  match a with
  | SetPlayerPosition v => setPlayerPosition v
  | SetPlayerRotation v => setPlayerRotation v
  | SetPlayerVelocity v => setPlayerVelocity v
  | SetPlayerMoving b => setPlayerMoving b
  | SetPlayerJumping b => setPlayerJumping b
  | SetCameraMode m => setCameraMode m
  | SetFPS f => SceneStore.setFPS f
  | SetQuality q => SceneStore.setQuality q
  | SetAutoQuality b => SceneStore.setAutoQuality b
  | SetShowHUD b => setShowHUD b
  | SetShowMenu b => setShowMenu b
  | SetShowLoading b => setShowLoading b
  | SetLoadingProgress p => setLoadingProgress p
  | SetActiveHologram h => setActiveHologram h
  | SetPointerLocked b => setPointerLocked b
  | ResetPlayer => resetPlayer
  | ToggleMenu => toggleMenu
  | ToggleHUD => toggleHUD
  end.

(** The top-level key of the state an action's updater returns. *)
Inductive Slice := player_slice | performance_slice | ui_slice.

Definition slice_of (a : Action) : Slice :=
  match a with
  | SetPlayerPosition _ | SetPlayerRotation _ | SetPlayerVelocity _
  | SetPlayerMoving _ | SetPlayerJumping _ | SetCameraMode _ | ResetPlayer => player_slice
  | SetFPS _ | SetQuality _ | SetAutoQuality _ => performance_slice
  | _ => ui_slice
  end.

Definition run_actions (s : SceneState) (acts : list Action) : SceneState :=
  fold_left (fun st a => dispatch a st) acts s.

End StoreActions.

(** Order of detail of the tiers: [low] < [medium] < [high]. *)
Definition detail (q : Quality) : nat :=
  match q with low => 0 | medium => 1 | high => 2 end.

(** ** [performanceOptimizer.lodSystem] (performanceUtils.ts lines 251-267) *)

Module LodSystem.

Definition getDistanceLOD (distance : Q) : Quality :=
  if qlt distance 20 then high
  else if qlt distance 50 then medium
  else low.

(** [Math.floor(baseCount * multipliers[quality])] with the multipliers
    0.3, 0.6 and 1.0. *)
Definition multiplier (quality : Quality) : Q :=
  match quality with low => 3 # 10 | medium => 6 # 10 | high => 1 end.

Definition getParticleCount (baseCount : Q) (quality : Quality) : Z :=
  Qfloor (baseCount * multiplier quality).

Definition getShadowMapSize (quality : Quality) : Z :=
  match quality with low => 512 | medium => 1024 | high => 2048 end.

End LodSystem.

(** ** [InstancedMesh] (src/unnamed/part_008 lines 340-385) *)

Module Instanced.

(** The [useMemo] computing [maxInstances] from [positions.length]. *)
Definition maxInstances (quality : Quality) (base : Z) : Z :=
  match quality with
  | low => Z.max 1 (Qfloor (inject_Z base * (3 # 10)))
  | medium => Z.max 1 (Qfloor (inject_Z base * (6 # 10)))
  | high => base
  end.

(** [arr.slice(0, end)] *)
Definition slice0 {A} (l : list A) (end_ : Z) : list A :=
  if (end_ <? 0)%Z then firstn (Z.to_nat (Z.of_nat (length l) + end_)) l
  else firstn (Z.to_nat end_) l.

Definition actualPositions {A} (positions : list A) (quality : Quality) : list A :=
  slice0 positions (maxInstances quality (Z.of_nat (length positions))).

(** [mesh.count = actualPositions.length] *)
Definition count {A} (positions : list A) (quality : Quality) : Z :=
  Z.of_nat (length (actualPositions positions quality)).

(** The instance capacity passed in [args]: [Math.max(1, maxInstances)]. *)
Definition capacity {A} (positions : list A) (quality : Quality) : Z :=
  Z.max 1 (maxInstances quality (Z.of_nat (length positions))).

End Instanced.

(** ** Using an [ObjectPool] (src/unnamed/part_008 lines 300-328) *)

Module PoolUse.
Section PoolUse.

Context {T : Type} (createFn : T) (resetFn : T -> outcome T).

Local Abbreviation M := (@Pool.M T).

(** The constructor's loop [for (i = 0; i < initialSize; i++) pool.push(createFn())]. *)
Fixpoint fill (n : nat) : M unit :=
  match n with
  | O => Pool.ret tt
  | S k => Pool.bind (fill k) (fun _ => Pool.push createFn)
  end.

Definition construct (initialSize : Z) : list T := snd (fill (Z.to_nat initialSize) []).

(** Borrow an object and give it back: [pool.release(pool.get())]. *)
Definition cycle : M unit := Pool.bind (Pool.get createFn) (Pool.release resetFn).

Fixpoint cycles (n : nat) : M unit :=
  match n with
  | O => Pool.ret tt
  | S k => Pool.bind cycle (fun _ => cycles k)
  end.

End PoolUse.
End PoolUse.

(** ** [TextureAtlas] (src/unnamed/part_008 lines 389-467)

    The pixels drawn on the atlas canvas ([putImageData] / [drawImage]) are
    not read back by the atlas and are left out; what is kept is the
    packing state and the [regions] map. *)

Module Atlas.

Record Region := mkRegion { x : Q; y : Q; width : Q; height : Q }.

Record TextureAtlas := mkAtlas {
  canvasWidth : Q; canvasHeight : Q;
  regions : gmap string Region;
  currentX : Q; currentY : Q; rowHeight : Q }.

(** [new TextureAtlas(width, height)] in a browser. *)
Definition construct (width_ height_ : Q) : TextureAtlas :=
  mkAtlas width_ height_ ∅ 0 0 0.

(** [addTexture(name, image)] for an image of the given [width] and [height]. *)
Definition addTexture (name : string) (width_ height_ : Q) (a : TextureAtlas) : TextureAtlas :=
  if Qeq_bool width_ 0 || Qeq_bool height_ 0 then a
  else
    let '(cx, cy, rh) :=
      if qgt (currentX a + width_) (canvasWidth a)
      then (0, currentY a + rowHeight a, 0)
      else (currentX a, currentY a, rowHeight a) in
    mkAtlas (canvasWidth a) (canvasHeight a)
      (<[name := mkRegion (cx / canvasWidth a) (cy / canvasHeight a)
                          (width_ / canvasWidth a) (height_ / canvasHeight a)]> (regions a))
      (cx + width_) cy (Qmax rh height_).

Definition getUVs (name : string) (a : TextureAtlas) : option (list Q) :=
  match regions a !! name with
  | None => None
  | Some r =>
      Some [x r; y r + height r; x r + width r; y r + height r;
            x r + width r; y r; x r; y r]
  end.

Definition addAll (a : TextureAtlas) (images : list (string * Q * Q)) : TextureAtlas :=
  fold_left (fun st '(n, w, h) => addTexture n w h st) images a.

(** Two regions share no interior point: they are apart along an axis. *)
Definition apart (r1 r2 : Region) : Prop :=
  x r1 + width r1 <= x r2 \/ x r2 + width r2 <= x r1 \/
  y r1 + height r1 <= y r2 \/ y r2 + height r2 <= y r1.

End Atlas.

(** ** Update callbacks of the monitors ([onUpdate], [removeCallbackById],
    [removeCallback]: part_003 lines 98-119, performanceUtils.ts lines
    136-155)

    The [Map] is kept as its entries in insertion order; [cb === callback]
    is the parameter [same]. *)

Module Callbacks.
Section Callbacks.

Context {CB : Type} (same : CB -> CB -> bool).

Record Registry := mkRegistry { callbackIdCounter : Z; callbacks : list (Z * CB) }.

Definition empty : Registry := mkRegistry 0 [].

Definition keys (r : Registry) : list Z := map fst (callbacks r).

(** [map.set(k, v)]: replaces the value of an existing key in place,
    appends a new key. *)
Definition map_set (k : Z) (v : CB) (l : list (Z * CB)) : list (Z * CB) :=
  if existsb (fun p => Z.eqb (fst p) k) l
  then map (fun p => if Z.eqb (fst p) k then (k, v) else p) l
  else l ++ [(k, v)].

(** [map.delete(k)] *)
Definition map_delete (k : Z) (l : list (Z * CB)) : list (Z * CB) :=
  List.filter (fun p => negb (Z.eqb (fst p) k)) l.

(** [onUpdate(callback)]: [const id = ++counter; map.set(id, callback); return id]. *)
Definition onUpdate (callback : CB) (r : Registry) : Z * Registry :=
  let id := (callbackIdCounter r + 1)%Z in
  (id, mkRegistry id (map_set id callback (callbacks r))).

Definition removeCallbackById (id : Z) (r : Registry) : Registry :=
  mkRegistry (callbackIdCounter r) (map_delete id (callbacks r)).

(** The [for ... of entries()] loop: delete the first entry holding
    [callback], then [break]. *)
Definition removeCallback (callback : CB) (r : Registry) : Registry :=
  match find (fun p => same (snd p) callback) (callbacks r) with
  | Some (id, _) => mkRegistry (callbackIdCounter r) (map_delete id (callbacks r))
  | None => r
  end.

Inductive Op := OnUpdate (cb : CB) | RemoveById (id : Z) | RemoveCallback (cb : CB).

Definition exec (r : Registry) (o : Op) : Registry :=
  match o with
  | OnUpdate cb => snd (onUpdate cb r)
  | RemoveById id => removeCallbackById id r
  | RemoveCallback cb => removeCallback cb r
  end.

Definition run (ops : list Op) : Registry := fold_left exec ops empty.

End Callbacks.
End Callbacks.

(** ** [performanceMonitor] object (performanceUtils.ts lines 102-184)

    The callbacks it notifies get a snapshot and cannot change the fields
    below; they are modelled by [Callbacks]. *)

Module Monitor.
Import FrameTimer.

Record PM := mkPM { frameCount : Z; lastTime : Q; fps : number; frameTime : Q }.

(** The object literal: [frameCount: 0, lastTime: 0, fps: 60, frameTime: 16.67]. *)
Definition init : PM := mkPM 0 0 (Fin 60) (1667 # 100).

(** [endFrame(startTime)] with [currentTime = performance.now()]. *)
Definition endFrame (startTime currentTime : Q) (pm : PM) : PM :=
  let frameTime_ := currentTime - startTime in
  let count := (frameCount pm + 1)%Z in
  if (count mod 60 =? 0)%Z then
    let deltaTime := currentTime - lastTime pm in
    mkPM count currentTime (js_round (js_div 60000 deltaTime)) frameTime_
  else mkPM count (lastTime pm) (fps pm) frameTime_.

(** [<] and [>] between a number and a finite constant. *)
Definition num_lt (n : number) (c : Q) : bool :=
  match n with Fin q => qlt q c | PosInf => false | NegInf => true | NaN => false end.

Definition num_gt (n : number) (c : Q) : bool :=
  match n with Fin q => qgt q c | PosInf => true | NegInf => false | NaN => false end.

Definition shouldReduceQuality (pm : PM) : bool :=
  num_lt (fps pm) 30 || qgt (frameTime pm) (3333 # 100).

Definition shouldIncreaseQuality (pm : PM) : bool :=
  num_gt (fps pm) 55 && qlt (frameTime pm) 18.

End Monitor.

(** ** The on-screen [PerformanceMonitor] component (src/unnamed/part_008
    lines 473-511): one [useFrame] callback *)

Module Overlay.
Import FrameTimer.

Record Refs := mkRefs { lastTimeRef : option Q; lastFpsUpdateRef : Q }.

(** The refs after the callback at time [now], and the [fps] passed to
    [setMetrics], if it was called. *)
Definition frame (now : Q) (r : Refs) : Refs * option number :=
  let d := now - default now (lastTimeRef r) in
  (* [x || 16]: 0 is falsy *)
  let delta := if Qeq_bool d 0 then 16 else d in
  if qgt (now - lastFpsUpdateRef r) 250 then
    (mkRefs (Some now) now, Some (js_round (js_div 1000 delta)))
  else (mkRefs (Some now) (lastFpsUpdateRef r), None).

End Overlay.

(** ** [PerformanceMonitor.getPerformanceScore] and
    [PerformanceTester.analyzeResults] (src/unnamed/part_003 lines 140-148
    and 264-283) *)

Module Scores.

Record PerformanceBudget := mkBudget {
  targetFPS : Q; maxMemoryMB : Q; maxDrawCalls : Q; maxTriangles : Q; maxLoadTime : Q }.

Record PerformanceMetrics := mkMetrics {
  fps : Q; frameTime : Q; memoryUsage : Q; drawCalls : Q; triangles : Q;
  textureMemory : Q; geometryMemory : Q }.

(** [Math.round] *)
Definition round (q : Q) : Z := Qfloor (q + (1 # 2)).

Definition getPerformanceScore (m : PerformanceMetrics) (budget : PerformanceBudget) : Z :=
  let fpsScore := Qmin (fps m / Qmax 1 (targetFPS budget)) 1 * 25 in
  let memoryScore := Qmax (1 - memoryUsage m / Qmax 1 (maxMemoryMB budget)) 0 * 25 in
  let drawCallScore := Qmax (1 - drawCalls m / Qmax 1 (maxDrawCalls budget)) 0 * 25 in
  let triangleScore := Qmax (1 - triangles m / Qmax 1 (maxTriangles budget)) 0 * 25 in
  round (fpsScore + memoryScore + drawCallScore + triangleScore).

Record Analysis := mkAnalysis {
  fpsAvg : Z; fpsMin : Z; fpsMax : Z; memoryAvg : Z; memoryMax : Z;
  drawCallsAvg : Z; trianglesAvg : Z; duration : Z }.

Definition sum (f : PerformanceMetrics -> Q) (l : list PerformanceMetrics) : Q :=
  fold_left (fun s r => s + f r) l 0.

(** [Math.min(...xs)] and [Math.max(...xs)] on a non-empty list. *)
Definition list_min (x : Q) (xs : list Q) : Q := fold_left Qmin xs x.
Definition list_max (x : Q) (xs : list Q) : Q := fold_left Qmax xs x.

Definition analyzeResults (results : list PerformanceMetrics) (duration_ : Q) : option Analysis :=
  match results with
  | [] => None
  | r :: rest =>
      let n := inject_Z (Z.of_nat (length results)) in
      let avgFPS := sum fps results / n in
      let minFPS := list_min (fps r) (map fps rest) in
      let maxFPS := list_max (fps r) (map fps rest) in
      let avgMemory := sum memoryUsage results / n in
      let maxMemory := list_max (memoryUsage r) (map memoryUsage rest) in
      let avgDrawCalls := sum drawCalls results / n in
      let avgTriangles := sum triangles results / n in
      Some (mkAnalysis (round avgFPS) (round minFPS) (round maxFPS)
                       (round avgMemory) (round maxMemory)
                       (round avgDrawCalls) (round avgTriangles) (round duration_))
  end.

End Scores.

(** ** [BrowserCompatibilityChecker] (src/src/utils/browserCompatibility.ts)
    in a browser environment *)

Module Compat.
Import Probe.

Record Features := mkFeatures {
  es6 : bool; webAssembly : bool; serviceWorker : bool; webWorkers : bool;
  indexedDB : bool; localStorage : bool; pointerLock : bool; fullscreen : bool;
  gamepad : bool; webAudio : bool }.

Record BrowserInfo := mkBrowserInfo {
  name : string; version : string; engine : string; platform : string;
  mobile : bool; webglSupport : WebGLSupport; features : Features }.

Inductive Severity := critical | warning | info.

Definition Severity_eqb (a b : Severity) : bool :=
  match a, b with
  | critical, critical | warning, warning | info, info => true
  | _, _ => false
  end.

(** An issue; its [message] and [workaround] texts are only printed by
    [generateReport] and are left out. *)
Record Issue := mkIssue { severity : Severity; feature : string }.

Record Checker := mkChecker { browserInfo : option BrowserInfo; issues : list Issue }.

(** What the browser offers besides the graphics contexts. *)
Record BrowserEnv := mkBrowserEnv {
  env : Env; navPlatform : string; featureSupport : Features }.

(** *** [extractVersion(userAgent, /P\/([0-9.]+)/)] *)

Definition is_version_char (c : ascii) : bool :=
  let n := nat_of_ascii c in ((48 <=? n) && (n <=? 57))%nat || (n =? 46)%nat.

Fixpoint take_version (s : string) : string :=
  match s with
  | EmptyString => EmptyString
  | String c rest => if is_version_char c then String c (take_version rest) else EmptyString
  end.

(** The capture of the leftmost match of [(?:P1|P2|...)([0-9.]+)], the
    alternatives tried in order at each position. *)
Fixpoint match_version (prefixes : list string) (s : string) : option string :=
  let here :=
    fold_right (fun p acc =>
      if String.prefix p s then
        match take_version (substring (String.length p) (String.length s - String.length p) s) with
        | EmptyString => acc
        | v => Some v
        end
      else acc) None prefixes in
  match here with
  | Some v => Some v
  | None => match s with EmptyString => None | String _ rest => match_version prefixes rest end
  end.

Definition extractVersion (userAgent_ : string) (prefixes : list string) : string :=
  match match_version prefixes userAgent_ with Some v => v | None => "0"%string end.

(** [/Android|iPhone|iPad|iPod|BlackBerry|IEMobile|Opera Mini/i] *)
Definition mobileRe (ua : string) : bool :=
  existsb (includes (toLowerCase ua))
    ["android"; "iphone"; "ipad"; "ipod"; "blackberry"; "iemobile"; "opera mini"]%string.

Definition detectBrowser (be : BrowserEnv) : BrowserInfo :=
  let ua := userAgent (env be) in
  let '(name_, version_, engine_) :=
    if includes ua "Edg/" then ("Edge", extractVersion ua ["Edg/"], "Blink")%string
    else if includes ua "OPR" || includes ua "Opera" then
      ("Opera", extractVersion ua ["Opera/"; "OPR/"], "Blink")%string
    else if includes ua "Chrome" && negb (includes ua "Chromium") && negb (includes ua "Edg") then
      ("Chrome", extractVersion ua ["Chrome/"], "Blink")%string
    else if includes ua "Firefox" then ("Firefox", extractVersion ua ["Firefox/"], "Gecko")%string
    else if includes ua "Safari" && negb (includes ua "Chrome") then
      ("Safari", extractVersion ua ["Version/"], "WebKit")%string
    else ("Unknown", "0", "Unknown")%string in
  mkBrowserInfo name_ version_ engine_ (navPlatform be) (mobileRe ua)
                (checkWebGLSupport (env be)) (featureSupport be).

(** *** [parseInt(s, 10)]: [None] is [NaN] *)

Definition is_space (c : ascii) : bool :=
  let n := nat_of_ascii c in (n =? 32)%nat || ((9 <=? n) && (n <=? 13))%nat.

Definition digit (c : ascii) : option Z :=
  let n := nat_of_ascii c in
  if ((48 <=? n) && (n <=? 57))%nat then Some (Z.of_nat (n - 48)) else None.

Fixpoint digits (s : string) (acc : Z) : Z :=
  match s with
  | EmptyString => acc
  | String c rest => match digit c with Some d => digits rest (acc * 10 + d) | None => acc end
  end.

Definition parse_unsigned (s : string) : option Z :=
  match s with
  | String c rest => match digit c with Some d => Some (digits rest d) | None => None end
  | EmptyString => None
  end.

Fixpoint parseInt (s : string) : option Z :=
  match s with
  | String c rest =>
      if is_space c then parseInt rest
      else if Ascii.eqb c "-"%char then option_map Z.opp (parse_unsigned rest)
      else if Ascii.eqb c "+"%char then parse_unsigned rest
      else parse_unsigned s
  | EmptyString => None
  end.

(** [s.split('.')[0]] *)
Fixpoint before_dot (s : string) : string :=
  match s with
  | EmptyString => EmptyString
  | String c rest => if Ascii.eqb c "."%char then EmptyString else String c (before_dot rest)
  end.

Definition or_zero (s : string) : string :=
  match s with EmptyString => "0"%string | _ => s end.

Definition minVersions (name_ : string) : option Z :=
  if String.eqb name_ "Chrome" then Some 80%Z
  else if String.eqb name_ "Firefox" then Some 75%Z
  else if String.eqb name_ "Safari" then Some 13%Z
  else if String.eqb name_ "Edge" then Some 80%Z
  else if String.eqb name_ "Opera" then Some 67%Z
  else None.

Definition checkBrowserVersions (bi : BrowserInfo) : list Issue :=
  let raw := or_zero (version bi) in
  let currentVersion := parseInt (or_zero (before_dot raw)) in
  match minVersions (name bi), currentVersion with
  | Some minVersion, Some cur =>
      if (0 <? minVersion)%Z && (0 <? cur)%Z && (cur <? minVersion)%Z
      then [mkIssue warning "Browser Version"] else []
  | _, _ => []
  end.

Definition checkMobileCompatibility (ua : string) (bi : BrowserInfo) : list Issue :=
  mkIssue info "Mobile Device" ::
  (if String.eqb (name bi) "Safari"
      && (includes ua "iPhone" || includes ua "iPad" || includes ua "iPod")
   then [mkIssue info "iOS Safari"] else []).

Definition checkCompatibility (ua : string) (bi : BrowserInfo) : list Issue :=
  let w := webglSupport bi in
  let f := features bi in
  (if negb (webgl1 w) then [mkIssue critical "WebGL"] else []) ++
  (if negb (webgl2 w) then [mkIssue warning "WebGL 2"] else []) ++
  (if negb (es6 f) then [mkIssue critical "ES6"] else []) ++
  checkBrowserVersions bi ++
  (if mobile bi then checkMobileCompatibility ua bi else []) ++
  (if (0 <? maxTex w)%Z && (maxTex w <? 2048)%Z then [mkIssue warning "Texture Size"] else []) ++
  (if negb (pointerLock f) then [mkIssue info "Pointer Lock"] else []) ++
  (if negb (webAudio f) then [mkIssue info "Web Audio"] else []).

(** [new BrowserCompatibilityChecker()] in a browser: detection, then the checks. *)
Definition construct (be : BrowserEnv) : Checker :=
  let bi := detectBrowser be in
  mkChecker (Some bi) (checkCompatibility (userAgent (env be)) bi).

Definition isCompatible (c : Checker) : bool :=
  negb (existsb (fun i => Severity_eqb (severity i) critical) (issues c)).

Definition getCompatibilityScore (c : Checker) : Z :=
  match browserInfo c with
  | None => 0
  | Some _ =>
      let score :=
        fold_left (fun s i => match severity i with
                              | critical => s - 30
                              | warning => s - 15
                              | info => s - 5
                              end%Z) (issues c) 100%Z in
      Z.max 0 score
  end.

Record Settings := mkSettings {
  quality : Quality; enablePostProcessing : bool; enableShadows : bool;
  enableReflections : bool; enableParticles : bool;
  textureQuality : Q; renderScale : Q }.

Definition count_severity (s : Severity) (l : list Issue) : nat :=
  length (List.filter (fun i => Severity_eqb (severity i) s) l).

Definition getRecommendedSettings (c : Checker) : option Settings :=
  match browserInfo c with
  | None => None
  | Some bi =>
      let criticalIssues := count_severity critical (issues c) in
      let warningIssues := count_severity warning (issues c) in
      if (0 <? criticalIssues)%nat then None
      else if (2 <? warningIssues)%nat || mobile bi then
        Some (mkSettings low false false false false (1 # 2) (3 # 4))
      else if (0 <? warningIssues)%nat then
        Some (mkSettings medium true true false true (3 # 4) (9 # 10))
      else Some (mkSettings high true true true true 1 1)
  end.

End Compat.

(** ** [qualitySettings] and [textureOptimizer] (performanceUtils.ts) *)

Module Presets.

Record QualityPreset := mkPreset {
  lodDistance : list Q; maxDrawDistance : Q; particleMultiplier : Q;
  shadowQuality : Quality; shadowMapSize : Z; antialias : bool }.

Definition qualitySettings (q : Quality) : QualityPreset :=
  match q with
  | low => mkPreset [15; 35] 80 (3 # 10) low 512 false
  | medium => mkPreset [25; 60] 140 (6 # 10) medium 1024 true
  | high => mkPreset [40; 100] 220 1 high 2048 true
  end.

Definition shouldUseCompression (quality : Quality) : bool :=
  Quality_eqb quality low || Quality_eqb quality medium.

Definition getAnisotropy (quality : Quality) : Z :=
  match quality with low => 1 | medium => 4 | high => 16 end.

End Presets.

(** ** [networkMonitor] (performanceUtils.ts) beside the wrapper's
    [detectConnectionSpeed] *)

Module Network.

(** The object found at [navigator.connection || mozConnection ||
    webkitConnection]; [None] fields are [undefined]. *)
Record Connection := mkConnection {
  effectiveType : option string; type_ : option string;
  downlink : option Q; rtt : option Q; saveData : option bool }.

(** [s || d] on a string that may be [undefined]: [''] is falsy. *)
Definition str_or (o : option string) (d : string) : string :=
  match o with
  | Some s => if String.eqb s "" then d else s
  | None => d
  end.

Definition num_or0 (o : option Q) : Q := match o with Some q => q | None => 0 end.

Definition bool_orfalse (o : option bool) : bool := match o with Some b => b | None => false end.

Record ConnectionInfo := mkInfo {
  info_effectiveType : string; info_downlink : Q; info_rtt : Q; info_saveData : bool }.

Definition getConnectionInfo (connection : option Connection) : option ConnectionInfo :=
  match connection with
  | Some c => Some (mkInfo (str_or (effectiveType c) "unknown") (num_or0 (downlink c))
                           (num_or0 (rtt c)) (bool_orfalse (saveData c)))
  | None => None
  end.

Definition shouldReduceAssetQuality (connection : option Connection) : bool :=
  match getConnectionInfo connection with
  | None => false
  | Some i => info_saveData i || String.eqb (info_effectiveType i) "slow-2g"
              || String.eqb (info_effectiveType i) "2g"
  end.

(** What the wrapper switches on: [connection.effectiveType ||
    connection.type || ''], when a connection object exists; this is the
    [connectionType] field of [Probe.Env]. *)
Definition wrapperConnectionType (connection : option Connection) : option string :=
  option_map (fun c => str_or (effectiveType c) (str_or (type_ c) "")) connection.

End Network.

(** ** Concrete environments for the probe *)

Module Envs.

(** A desktop Chrome on Windows with an Intel GPU: every fresh canvas can
    create both a ["webgl"] and a ["webgl2"] context. *)
Definition intelGL : Probe.GLInfo :=
  Probe.mkGL 16384 16 [] (Some "ANGLE (Intel, Intel(R) UHD Graphics 630 Direct3D11)"%string).

Definition desktopIntel : Probe.Env :=
  Probe.mkEnv
    "Mozilla/5.0 (Windows NT 10.0; Win64; x64) AppleWebKit/537.36 (KHTML, like Gecko) Chrome/120.0.0.0 Safari/537.36"%string
    (fun kind => if String.eqb kind "webgl" || String.eqb kind "webgl2"
                 then Probe.CtxOk intelGL else Probe.CtxNull)
    false 1920 1080 None.

(** The same desktop where creating any graphics context throws. *)
Definition desktopThrowing : Probe.Env :=
  Probe.mkEnv (Probe.userAgent desktopIntel) (fun _ => Probe.CtxThrows)
    false 1920 1080 None.

End Envs.

(** * Proofs *)

Lemma qgt_spec x y : qgt x y = true <-> y < x.
Proof. unfold qgt. apply qlt_spec. Qed.

Lemma qgt_false x y : qgt x y = false <-> x <= y.
Proof. unfold qgt. apply qlt_false. Qed.

(** Case on a number comparison of the code, keeping its meaning. *)
Ltac qcase e :=
  let E := fresh "E" in
  destruct e eqn:E;
  [ first [apply qlt_spec in E | apply qgt_spec in E]
  | first [apply qlt_false in E | apply qgt_false in E] ].

(** *** Tier adjustment *)

Lemma trace_head {S} (get : S -> Quality) step s xs :
  exists t, trace get step s xs = get s :: t.
Proof. destruct xs; simpl; eauto. Qed.

Lemma trace_no_jumps {S} (get : S -> Quality) (step : S -> Q -> S) :
  (forall s x, no_jump (get s) (get (step s x)) = true) ->
  forall s xs, no_jumps (trace get step s xs) = true.
Proof.
  intros Hstep s xs. revert s. induction xs as [|x xs IH]; intros s; [reflexivity|].
  simpl. destruct (trace_head get step (step s x) xs) as [t Ht].
  rewrite Ht. rewrite <- Ht. simpl. rewrite Hstep, IH. reflexivity.
Qed.

Lemma adaptive_run_trace aq xs :
  AdaptiveQuality.run aq xs = trace AdaptiveQuality.current AdaptiveQuality.update aq xs.
Proof.
  revert aq. induction xs as [|x xs IH]; intros aq; simpl; [reflexivity|]. now rewrite IH.
Qed.

Lemma store_run_trace s xs :
  SceneStore.run_fps s xs =
  trace (fun st => SceneStore.quality (SceneStore.performance st))
        (fun st f => SceneStore.setFPS f st) s xs.
Proof.
  revert s. induction xs as [|x xs IH]; intros s; simpl; [reflexivity|]. now rewrite IH.
Qed.

Lemma adaptive_update_adjacent aq f :
  no_jump (AdaptiveQuality.current aq)
          (AdaptiveQuality.current (AdaptiveQuality.update aq f)) = true.
Proof.
  destruct aq as [c t tol]; unfold AdaptiveQuality.update; simpl.
  destruct (qlt f (t - tol)), (qgt f (t + tol)), c; reflexivity.
Qed.

Lemma setFPS_adjacent s f :
  no_jump (SceneStore.quality (SceneStore.performance s))
          (SceneStore.quality (SceneStore.performance (SceneStore.setFPS f s))) = true.
Proof.
  destruct s as [pl [fp q a] u]; unfold SceneStore.setFPS, SceneStore.set,
    SceneStore.setFPS_partial; simpl.
  destruct a; [|destruct q; reflexivity].
  destruct (qlt f 30), (qlt f 20), (qgt f 50), (qgt f 40), q; reflexivity.
Qed.

(** For every current tier and FPS sample (with the tolerance band not
    negative, as the code's 5), [adaptiveQuality.update] steps down one tier
    below [target - tolerance], up one tier above [target + tolerance], and
    keeps the tier otherwise; target and tolerance are untouched. *)
Lemma adaptive_quality_update_one_step (self : AdaptiveQuality.t) (fps : Q)
    (Htol : 0 <= AdaptiveQuality.tolerance self) :
  let cur := AdaptiveQuality.current self in
  let t := AdaptiveQuality.target self in
  let tol := AdaptiveQuality.tolerance self in
  let next := AdaptiveQuality.update self fps in
  (fps < t - tol -> AdaptiveQuality.current next = spec_step_down cur) /\
  (t + tol < fps -> AdaptiveQuality.current next = spec_step_up cur) /\
  (t - tol <= fps <= t + tol -> AdaptiveQuality.current next = cur) /\
  AdaptiveQuality.target next = t /\ AdaptiveQuality.tolerance next = tol.
Proof.
  destruct self as [c t tol]; simpl in *; unfold AdaptiveQuality.update; simpl.
  repeat split; intros H.
  - qcase (qlt fps (t - tol)); [destruct c; reflexivity | exfalso; lra].
  - qcase (qlt fps (t - tol)); [exfalso; lra|].
    qcase (qgt fps (t + tol)); [destruct c; reflexivity | exfalso; lra].
  - qcase (qlt fps (t - tol)); [exfalso; lra|].
    qcase (qgt fps (t + tol)); [exfalso; lra | reflexivity].
Qed.

Lemma setFPS_steps (s : SceneStore.SceneState) (fps : Q) :
  let p := SceneStore.performance s in
  let nxt := SceneStore.quality (SceneStore.performance (SceneStore.setFPS fps s)) in
  (SceneStore.autoQuality p = false -> nxt = SceneStore.quality p) /\
  (SceneStore.autoQuality p = true ->
   (SceneStore.quality p = high -> (fps < 30 -> nxt = medium) /\ (30 <= fps -> nxt = high)) /\
   (SceneStore.quality p = medium ->
      (fps < 20 -> nxt = low) /\ (50 < fps -> nxt = high) /\
      (20 <= fps /\ fps <= 50 -> nxt = medium)) /\
   (SceneStore.quality p = low -> (40 < fps -> nxt = medium) /\ (fps <= 40 -> nxt = low))).
Proof.
  destruct s as [pl [fp q a] u]; unfold SceneStore.setFPS, SceneStore.set,
    SceneStore.setFPS_partial; cbn -[qlt qgt].
  split; [intros ->; reflexivity|]. intros ->.
  split; [|split]; intros ->; cbn -[qlt qgt];
    repeat split; intros H;
    repeat match goal with
           | |- context [qlt ?x ?y] => qcase (qlt x y); try (exfalso; lra)
           | |- context [qgt ?x ?y] => qcase (qgt x y); try (exfalso; lra)
           end; reflexivity.
Qed.

(** C2, as stated, for the store's [setFPS] (part_011), the other
    tier-adjustment step the claim covers: there is no target and no
    tolerance for which [setFPS] follows the band rule. With
    [target - tolerance > 20] a sample of 20 from [medium] keeps [medium]
    instead of stepping down; otherwise a sample of [target - tolerance]
    (inside the band) from [high] steps down to [medium]. For the values
    60 and 5 of [adaptiveQuality], a sample of 45 from [high] stays [high]. *)
Lemma setFPS_band_rule_counterexample :
  ~ (exists t tol : Q, 0 <= tol /\
       forall (s : SceneStore.SceneState) (f : Q),
       SceneStore.autoQuality (SceneStore.performance s) = true ->
       let cur := SceneStore.quality (SceneStore.performance s) in
       let nxt := SceneStore.quality (SceneStore.performance (SceneStore.setFPS f s)) in
       (f < t - tol -> nxt = spec_step_down cur) /\
       (t + tol < f -> nxt = spec_step_up cur) /\
       (t - tol <= f /\ f <= t + tol -> nxt = cur)).
Proof.
  intros (t & tol & Htol & H).
  destruct (Qlt_le_dec 20 (t - tol)) as [Hlt | Hle].
  - set (s := SceneStore.mkScene SceneStore.initialPlayerState (SceneStore.mkPerf 60 medium true)
                                 SceneStore.initialUIState).
    destruct (H s 20 eq_refl) as [Hd _]. specialize (Hd Hlt).
    destruct (setFPS_steps s 20) as [_ Hs]. destruct (Hs eq_refl) as [_ [Hm _]].
    destruct (Hm eq_refl) as [_ [_ Hmid]].
    cbn zeta in Hd. rewrite Hmid in Hd by (split; lra). discriminate Hd.
  - set (s := SceneStore.mkScene SceneStore.initialPlayerState (SceneStore.mkPerf 60 high true)
                                 SceneStore.initialUIState).
    destruct (H s (t - tol) eq_refl) as [_ [_ Hb]].
    assert (Hin : t - tol <= t - tol /\ t - tol <= t + tol) by (split; lra).
    specialize (Hb Hin).
    destruct (setFPS_steps s (t - tol)) as [_ Hs]. destruct (Hs eq_refl) as [Hh _].
    destruct (Hh eq_refl) as [Hdown _].
    cbn zeta in Hb. rewrite Hdown in Hb by lra. discriminate Hb.
Qed.

(** C2, amended: the claim's band rule holds for
    [performanceOptimizer.adaptiveQuality.update] (target 60 and
    tolerance 5 in the code; any tolerance at least 0): one tier down
    below [target - tolerance], one tier up above [target + tolerance],
    unchanged inside the band, target and tolerance untouched. The
    store's [setFPS] has no target or tolerance; with [autoQuality] on it
    uses fixed cut-offs: from [high], down to [medium] when [fps < 30];
    from [medium], down to [low] when [fps < 20] and up to [high] when
    [fps > 50]; from [low], up to [medium] when [fps > 40]; otherwise the
    tier is kept. With [autoQuality] off the tier never changes. *)
Theorem quality_tier_steps :
  forall (self : AdaptiveQuality.t) (s : SceneStore.SceneState) (fps : Q),
  0 <= AdaptiveQuality.tolerance self ->
  (let cur := AdaptiveQuality.current self in
   let t := AdaptiveQuality.target self in
   let tol := AdaptiveQuality.tolerance self in
   let next := AdaptiveQuality.update self fps in
   (fps < t - tol -> AdaptiveQuality.current next = spec_step_down cur) /\
   (t + tol < fps -> AdaptiveQuality.current next = spec_step_up cur) /\
   (t - tol <= fps <= t + tol -> AdaptiveQuality.current next = cur) /\
   AdaptiveQuality.target next = t /\ AdaptiveQuality.tolerance next = tol) /\
  (let p := SceneStore.performance s in
   let nxt := SceneStore.quality (SceneStore.performance (SceneStore.setFPS fps s)) in
   (SceneStore.autoQuality p = false -> nxt = SceneStore.quality p) /\
   (SceneStore.autoQuality p = true ->
    (SceneStore.quality p = high -> (fps < 30 -> nxt = medium) /\ (30 <= fps -> nxt = high)) /\
    (SceneStore.quality p = medium ->
       (fps < 20 -> nxt = low) /\ (50 < fps -> nxt = high) /\
       (20 <= fps /\ fps <= 50 -> nxt = medium)) /\
    (SceneStore.quality p = low -> (40 < fps -> nxt = medium) /\ (fps <= 40 -> nxt = low)))).
Proof.
  intros self s fps Htol. split.
  - exact (adaptive_quality_update_one_step self fps Htol).
  - exact (setFPS_steps s fps).
Qed.

Lemma quality_tier_steps_witness :
  0 <= AdaptiveQuality.tolerance AdaptiveQuality.init /\
  AdaptiveQuality.current (AdaptiveQuality.update AdaptiveQuality.init 15) = low /\
  SceneStore.quality (SceneStore.performance (SceneStore.setFPS 45 SceneStore.initialState)) = high.
Proof.
  assert (Htol : 0 <= AdaptiveQuality.tolerance AdaptiveQuality.init) by (simpl; lra).
  destruct (quality_tier_steps AdaptiveQuality.init SceneStore.initialState 15 Htol)
    as [[Hdown _] _].
  destruct (quality_tier_steps AdaptiveQuality.init SceneStore.initialState 45 Htol)
    as [_ [_ Hs]].
  split; [exact Htol|]. split.
  - apply Hdown. simpl. lra.
  - destruct (Hs eq_refl) as [Hh _]. apply (proj2 (Hh eq_refl)). lra.
Defined.

(** C3: for every sequence of FPS samples and every starting state, the
    tier sequence of [adaptiveQuality.update] and the tier sequence of the
    store's [setFPS] never put [low] next to [high]. *)
Theorem tier_transitions_adjacent :
  forall (aq : AdaptiveQuality.t) (fpss : list Q)
         (s : SceneStore.SceneState) (samples : list Q),
  no_jumps (AdaptiveQuality.run aq fpss) = true /\
  no_jumps (SceneStore.run_fps s samples) = true.
Proof.
  intros aq fpss s samples. split.
  - rewrite adaptive_run_trace. apply trace_no_jumps, adaptive_update_adjacent.
  - rewrite store_run_trace. apply trace_no_jumps.
    intros st f. apply setFPS_adjacent.
Qed.

(** C10: [setFPS], [setQuality] and [setAutoQuality] leave the [player]
    and [ui] parts of the store as they were. *)
Theorem performance_setters_frame :
  forall (s : SceneStore.SceneState) (f : Q) (q : Quality) (a : bool),
  SceneStore.player (SceneStore.setFPS f s) = SceneStore.player s /\
  SceneStore.ui (SceneStore.setFPS f s) = SceneStore.ui s /\
  SceneStore.player (SceneStore.setQuality q s) = SceneStore.player s /\
  SceneStore.ui (SceneStore.setQuality q s) = SceneStore.ui s /\
  SceneStore.player (SceneStore.setAutoQuality a s) = SceneStore.player s /\
  SceneStore.ui (SceneStore.setAutoQuality a s) = SceneStore.ui s.
Proof.
  intros s f q a. repeat split.
Qed.

(** *** LOD selection *)

Lemma frame_single0 d :
  LOD.frame medium [20] (1#10) 2 0 d = if qgt d 22 then 1%Z else 0%Z.
Proof.
  unfold LOD.frame, LOD.naiveLOD; simpl.
  qcase (qgt d (20 * 1)); simpl.
  - qcase (qgt d (20 * 1 * (1 + (1 # 10)))); simpl;
      qcase (qgt d 22); simpl; try reflexivity; exfalso; lra.
  - qcase (qgt d 22); simpl; try reflexivity; exfalso; lra.
Qed.

Lemma frame_single1 d :
  LOD.frame medium [20] (1#10) 2 1 d = if qlt d 18 then 0%Z else 1%Z.
Proof.
  unfold LOD.frame, LOD.naiveLOD; simpl.
  qcase (qgt d (20 * 1)); simpl.
  - qcase (qlt d 18); simpl; try reflexivity; exfalso; lra.
  - qcase (qlt d (20 * 1 * (1 - (1 # 10)))); simpl;
      qcase (qlt d 18); simpl; try reflexivity; exfalso; lra.
Qed.

(** In binary64 the two hysteresis-adjusted thresholds are exactly 22 and
    18, so the exact arithmetic of the model loses nothing here. *)
Lemma float_thresholds_exact :
  (20 * (1 + 0x1.999999999999ap-4))%float = 22%float /\
  (20 * (1 - 0x1.999999999999ap-4))%float = 18%float.
Proof. split; vm_compute; reflexivity. Qed.

(** C1: with one threshold [T = 20] (tier [medium], multiplier 1.0),
    [hysteresis = 0.1] and two levels, a frame from committed level 0 or 1
    keeps the level whenever the distance lies in (18, 22); the level
    changes exactly when it is 0 and the distance exceeds 22, or it is 1
    and the distance falls below 18; and any run of frames with distances in
    (18, 22) keeps the committed level throughout. *)
Theorem lod_single_threshold_hysteresis (cur : Z) (d : Q)
    (Hcur : cur = 0%Z \/ cur = 1%Z) :
  let step := LOD.frame medium [20] (1#10) 2 in
  (18 < d < 22 -> step cur d = cur) /\
  (step cur d <> cur <-> (cur = 0%Z /\ 22 < d) \/ (cur = 1%Z /\ d < 18)) /\
  (step cur d = 0%Z \/ step cur d = 1%Z) /\
  (forall ds, Forall (fun x => 18 < x < 22) ds ->
     Forall (fun l => l = cur) (LOD.run medium [20] (1#10) 2 cur ds)).
Proof.
  intros step. unfold step.
  assert (Hband : forall c x, (c = 0%Z \/ c = 1%Z) -> 18 < x < 22 ->
            LOD.frame medium [20] (1#10) 2 c x = c).
  { intros c x [-> | ->] Hx.
    - rewrite frame_single0. qcase (qgt x 22); [exfalso; lra | reflexivity].
    - rewrite frame_single1. qcase (qlt x 18); [exfalso; lra | reflexivity]. }
  split; [|split; [|split]].
  - apply Hband, Hcur.
  - destruct Hcur as [-> | ->].
    + rewrite frame_single0. qcase (qgt d 22); split; intros H.
      * left; split; [reflexivity | exact E].
      * discriminate.
      * exfalso; apply H; reflexivity.
      * exfalso; destruct H as [[_ H] | [H _]]; [lra | discriminate].
    + rewrite frame_single1. qcase (qlt d 18); split; intros H.
      * right; split; [reflexivity | exact E].
      * discriminate.
      * exfalso; apply H; reflexivity.
      * exfalso; destruct H as [[H _] | [_ H]]; [discriminate | lra].
  - destruct Hcur as [-> | ->];
      [rewrite frame_single0 | rewrite frame_single1];
      [destruct (qgt d 22) | destruct (qlt d 18)]; auto.
  - intros ds Hds. induction Hds as [|x ds Hx Hds IH]; simpl.
    + repeat constructor.
    + rewrite (Hband cur x Hcur Hx). constructor; [reflexivity | exact IH].
Qed.

Lemma lod_single_threshold_hysteresis_witness :
  (0 = 0 \/ 0 = 1)%Z /\
  Forall (fun l => l = 0%Z)
    (LOD.run medium [20] (1#10) 2 0 [39 # 2; 41 # 2; 39 # 2; 41 # 2]).
Proof.
  assert (H0 : (0 = 0 \/ 0 = 1)%Z) by (left; reflexivity).
  split; [exact H0|].
  destruct (lod_single_threshold_hysteresis 0 0 H0) as [_ [_ [_ Hrun]]].
  apply Hrun. repeat constructor; vm_compute; discriminate.
Defined.

(** C4, as stated: the first frame assigns the naive level, without
    hysteresis. False: the level before the first frame is 0 and a first
    frame at distance 21 (naive level 1) keeps level 0. *)
Lemma lod_first_frame_naive_counterexample :
  ~ (forall d : Q,
       LOD.frame medium [20; 50] (1#10) 3 LOD.initialLOD d =
       LOD.naiveLOD d (map (fun x => x * LOD.qualityMultiplier medium) [20; 50])).
Proof.
  intros H. specialize (H 21). vm_compute in H. discriminate H.
Qed.

(** C4, amended: the first frame is an ordinary frame from the initial
    level 0, hysteresis included. With thresholds [20, 50], tier [medium]
    and the default [hysteresis = 0.1] (three levels): a distance whose
    naive level is 0 gives level 0, distance 10 gives 0, distance 80 gives 2,
    and distance 21, naive level 1, stays at level 0. *)
Theorem lod_first_frame_from_level0 :
  let adj := map (fun x => x * LOD.qualityMultiplier medium) [20; 50] in
  let first := LOD.frame medium [20; 50] (1#10) 3 LOD.initialLOD in
  (forall d : Q, LOD.naiveLOD d adj = 0%Z -> first d = 0%Z) /\
  first 10 = 0%Z /\
  first 80 = 2%Z /\
  (LOD.naiveLOD 21 adj = 1%Z /\ first 21 = 0%Z).
Proof.
  intros adj first. unfold first, adj.
  split; [|vm_compute; repeat split].
  intros d Hd. unfold LOD.frame. rewrite Hd. reflexivity.
Qed.

(** Moving out from level 0 the code reads [adjustedDistances[newLOD]], the
    threshold above the one crossed: a first frame at distance 35 (naive
    level 1) keeps level 0, as the outward threshold used is 50 * 1.1. *)
Example lod_outward_threshold_index :
  LOD.frame medium [20; 50] (1#10) 3 LOD.initialLOD 35 = 0%Z /\
  LOD.frame medium [20; 50] (1#10) 3 LOD.initialLOD 56 = 2%Z.
Proof. vm_compute. split; reflexivity. Qed.

(** *** Object pool *)

(** C8: [release] never lets an exception out. When [resetFn] succeeds,
    the reset object is appended to the free list; when it throws, the free
    list is left exactly as it was (the object is dropped). *)
Theorem pool_release_contains_reset_failure :
  forall (T : Type) (resetFn : T -> outcome T) (pool : list T) (obj : T),
  Pool.release resetFn obj pool =
  (Normal tt, match resetFn obj with
              | Normal reset => pool ++ [reset]
              | Throw _ => pool
              end).
Proof.
  intros T resetFn pool obj.
  unfold Pool.release, Pool.try_catch, Pool.bind, Pool.lift, Pool.push, Pool.ret.
  destruct (resetFn obj); reflexivity.
Qed.

(** *** Visibility culling *)

Section CullingProofs.

Context {Vec3 Mat4 Frustum GeomData : Type}.
Context (applyMatrix4 : Vec3 -> Mat4 -> Vec3).
Context (intersectsSphere : Frustum -> Culling.Sphere Vec3 -> bool).
Context (computeBoundingSphere : GeomData -> Culling.Sphere Vec3).
Context (geomData : positive -> GeomData).
Context (fr : Frustum).

Local Abbreviation bsphere := (Culling.boundingSphere computeBoundingSphere geomData).
Local Abbreviation visit := (Culling.visit applyMatrix4 intersectsSphere
                           computeBoundingSphere geomData fr).
Local Abbreviation cull := (Culling.cull applyMatrix4 intersectsSphere
                          computeBoundingSphere geomData fr).

(** The sphere a geometry gets from a cache, cached or computed. *)
Definition sphere_of (c : gmap positive (Culling.Sphere Vec3)) (g : positive) : Culling.Sphere Vec3 :=
  snd (bsphere c g).

Lemma bsphere_sphere_of c g :
  (forall g', sphere_of (fst (bsphere c g)) g' = sphere_of c g').
Proof.
  intros g'. unfold sphere_of, Culling.boundingSphere.
  destruct (c !! g) as [s|] eqn:Hg; simpl; [reflexivity|].
  destruct (decide (g = g')) as [<-|Hne].
  - rewrite lookup_insert_eq, Hg. reflexivity.
  - rewrite lookup_insert_ne by exact Hne. destruct (c !! g'); reflexivity.
Qed.

Lemma visit_eq c o :
  visit c o =
  (if String.eqb (Culling.otype o) "Mesh" then fst (bsphere c (Culling.geometry o)) else c,
   if String.eqb (Culling.otype o) "Mesh" then
     Culling.mkObject _ (Culling.otype o) (Culling.geometry o) (Culling.matrixWorld o)
       (Culling.scale o)
       (intersectsSphere fr
          (Culling.mkSphere _
             (applyMatrix4 (Culling.center (sphere_of c (Culling.geometry o)))
                           (Culling.matrixWorld o))
             (Culling.radius (sphere_of c (Culling.geometry o)) *
              Culling.maxScale (Culling.scale o))))
   else o).
Proof.
  unfold Culling.visit, sphere_of.
  destruct (String.eqb (Culling.otype o) "Mesh"); [|reflexivity].
  destruct (bsphere c (Culling.geometry o)); reflexivity.
Qed.

Lemma visit_cache c o g : sphere_of (fst (visit c o)) g = sphere_of c g.
Proof.
  rewrite visit_eq. destruct (String.eqb _ _); simpl; [apply bsphere_sphere_of | reflexivity].
Qed.

Lemma visit_obj_ext c c' o :
  (forall g, sphere_of c' g = sphere_of c g) -> snd (visit c' o) = snd (visit c o).
Proof. intros H. rewrite !visit_eq. simpl. now rewrite H. Qed.

Lemma cull_map c c' objs :
  (forall g, sphere_of c' g = sphere_of c g) ->
  snd (cull c' objs) = map (fun o => snd (visit c o)) objs /\
  (forall g, sphere_of (fst (cull c' objs)) g = sphere_of c g).
Proof.
  revert c'. induction objs as [|o objs IH]; intros c' H; simpl; [split; auto|].
  destruct (visit c' o) as [c1 o'] eqn:Hv.
  assert (H1 : forall g, sphere_of c1 g = sphere_of c g).
  { intros g. replace c1 with (fst (visit c' o)) by now rewrite Hv.
    rewrite visit_cache. apply H. }
  destruct (IH c1 H1) as [IH1 IH2].
  destruct (cull c1 objs) as [c2 rest'] eqn:Hc. simpl in *.
  split; [|exact IH2].
  f_equal; [|exact IH1].
  replace o' with (snd (visit c' o)) by now rewrite Hv.
  apply visit_obj_ext, H.
Qed.

Lemma visit_visible_stable c o :
  Culling.visible (snd (visit c (snd (visit c o)))) = Culling.visible (snd (visit c o)).
Proof.
  rewrite (visit_eq c o). destruct (String.eqb (Culling.otype o) "Mesh") eqn:Hm; simpl.
  - rewrite visit_eq. simpl. rewrite Hm. reflexivity.
  - rewrite visit_eq, Hm. reflexivity.
Qed.

End CullingProofs.

(** C9: for any frustum, cached bounding spheres and scene objects, (1) a
    second culling pass right after the first (same frustum, same
    transforms) leaves every [visible] flag as the first pass set it; (2)
    each object comes out of a pass as a function of itself and the caches
    before the pass alone, whatever the other objects and their order; so
    (3) processing the objects in any other order gives the same objects
    with the same flags, in that order. *)
Theorem culling_idempotent_order_independent :
  forall (Vec3 Mat4 Frustum GeomData : Type)
         (applyMatrix4 : Vec3 -> Mat4 -> Vec3)
         (intersectsSphere : Frustum -> Culling.Sphere Vec3 -> bool)
         (computeBoundingSphere : GeomData -> Culling.Sphere Vec3)
         (geomData : positive -> GeomData) (fr : Frustum)
         (cache : gmap positive (Culling.Sphere Vec3))
         (objs : list (Culling.Object3D Mat4)),
  let cull := Culling.cull applyMatrix4 intersectsSphere computeBoundingSphere geomData fr in
  let visit := Culling.visit applyMatrix4 intersectsSphere computeBoundingSphere geomData fr in
  let first := cull cache objs in
  Culling.visibles (snd (cull (fst first) (snd first))) = Culling.visibles (snd first) /\
  snd first = map (fun o => snd (visit cache o)) objs /\
  (forall objs', Permutation objs objs' ->
     Permutation (snd first) (snd (cull cache objs'))).
Proof.
  intros Vec3 Mat4 Frustum GeomData ap inter comp gd fr cache objs cull visit first.
  unfold first, cull, visit.
  destruct (cull_map ap inter comp gd fr cache cache objs (fun _ => eq_refl))
    as [Hobjs Hcache].
  split; [|split].
  - destruct (cull_map ap inter comp gd fr cache _ (snd (Culling.cull ap inter comp gd fr cache objs))
                Hcache) as [H2 _].
    rewrite H2, Hobjs. unfold Culling.visibles. rewrite !map_map.
    apply map_ext. intros o. apply visit_visible_stable.
  - exact Hobjs.
  - intros objs' Hp. rewrite Hobjs.
    destruct (cull_map ap inter comp gd fr cache cache objs' (fun _ => eq_refl)) as [H' _].
    rewrite H'. apply Permutation_map, Hp.
Qed.

(** *** Frame timer *)

(** What holds of every monitor state reached after [start]. *)
Definition timer_inv (s : FrameTimer.State) : Prop :=
  FrameTimer.running s = true /\
  Forall (fun d => 0 <= d) (FrameTimer.frameTimes s) /\
  exists q, FrameTimer.fps s = FrameTimer.Fin q /\ 0 <= q.

Lemma round_nonneg q : 0 <= q -> 0 <= inject_Z (Qfloor (q + (1 # 2))).
Proof.
  intros Hq. change 0 with (inject_Z 0). rewrite <- Zle_Qle.
  change 0%Z with (Qfloor 0). apply Qfloor_resp_le. lra.
Qed.

Lemma calculateMetrics_fps s :
  exists q, FrameTimer.fps (FrameTimer.calculateMetrics s) = FrameTimer.Fin q /\ 0 <= q.
Proof.
  unfold FrameTimer.calculateMetrics; simpl.
  set (avg := if (length (FrameTimer.frameTimes s) =? 0)%nat then 16
              else fold_left Qplus (FrameTimer.frameTimes s) 0 /
                   inject_Z (Z.of_nat (length (FrameTimer.frameTimes s)))).
  qcase (qgt avg 0).
  - unfold FrameTimer.js_div.
    destruct (Qeq_bool avg 0) eqn:Hz.
    + apply Qeq_bool_iff in Hz. exfalso. rewrite Hz in E. apply (Qlt_irrefl 0 E).
    + exists (inject_Z (Qfloor (1000 / avg + (1 # 2)))). split; [reflexivity|].
      apply round_nonneg. apply Qle_shift_div_l; [exact E | lra].
  - exists (inject_Z (Qfloor (0 + (1 # 2)))). split; [reflexivity|].
    apply round_nonneg. lra.
Qed.

Lemma update_frameTimes s now :
  FrameTimer.running s = true ->
  FrameTimer.frameTimes (FrameTimer.update now s) =
  let pushed := FrameTimer.frameTimes s ++ [Qmax 0 (now - FrameTimer.lastTime s)] in
  if (120 <? length pushed)%nat then tl pushed else pushed.
Proof.
  intros Hr. unfold FrameTimer.update. rewrite Hr. simpl.
  match goal with
  | |- FrameTimer.frameTimes (if ?b then _ else _) = _ => destruct b
  end; reflexivity.
Qed.

Lemma update_running s now :
  FrameTimer.running s = true -> FrameTimer.running (FrameTimer.update now s) = true.
Proof.
  intros Hr. unfold FrameTimer.update. rewrite Hr. simpl.
  match goal with
  | |- FrameTimer.running (if ?b then _ else _) = _ => destruct b
  end; reflexivity.
Qed.

Lemma update_fps s now :
  FrameTimer.running s = true ->
  FrameTimer.fps (FrameTimer.update now s) = FrameTimer.fps s \/
  exists s', FrameTimer.update now s = FrameTimer.calculateMetrics s'.
Proof.
  intros Hr. unfold FrameTimer.update. rewrite Hr. simpl.
  match goal with
  | |- context [if ?b then FrameTimer.calculateMetrics ?s' else _] => destruct b
  end; [right; eauto | left; reflexivity].
Qed.

Lemma update_newest s now :
  FrameTimer.running s = true ->
  FrameTimer.newest (FrameTimer.update now s) = Some (Qmax 0 (now - FrameTimer.lastTime s)).
Proof.
  intros Hr. unfold FrameTimer.newest. rewrite (update_frameTimes s now Hr). cbv zeta.
  destruct (FrameTimer.frameTimes s) as [|x l].
  - reflexivity.
  - destruct (120 <? _)%nat.
    + change (tl ((x :: l) ++ [Qmax 0 (now - FrameTimer.lastTime s)]))
        with (l ++ [Qmax 0 (now - FrameTimer.lastTime s)]).
      rewrite rev_unit. reflexivity.
    + rewrite rev_unit. reflexivity.
Qed.

Lemma update_inv s now : timer_inv s -> timer_inv (FrameTimer.update now s).
Proof.
  intros (Hr & Hf & Hq). split; [apply update_running, Hr|split].
  - rewrite (update_frameTimes s now Hr). simpl.
    assert (Hp : Forall (fun d => 0 <= d)
                   (FrameTimer.frameTimes s ++ [Qmax 0 (now - FrameTimer.lastTime s)])).
    { apply Forall_app; split; [exact Hf|]. constructor; [apply Q.le_max_l | constructor]. }
    destruct (120 <? _)%nat; [|exact Hp].
    destruct (FrameTimer.frameTimes s ++ _); simpl; [constructor|].
    inversion Hp; assumption.
  - destruct (update_fps s now Hr) as [-> | [s' ->]]; [exact Hq|].
    apply calculateMetrics_fps.
Qed.

Lemma run_inv s ts : timer_inv s -> timer_inv (FrameTimer.run s ts).
Proof.
  revert s. induction ts as [|t ts IH]; intros s Hs; [exact Hs|].
  simpl. apply IH, update_inv, Hs.
Qed.

Lemma start_inv t0 t1 : timer_inv (FrameTimer.start t1 (FrameTimer.construct t0)).
Proof.
  split; [reflexivity|split; [constructor|]]. exists 0. split; [reflexivity | lra].
Qed.

(** The FPS metric is 0 whenever the mean frame time is 0. *)
Definition zero_fps (s : FrameTimer.State) : Prop :=
  FrameTimer.frameTime s == 0 -> FrameTimer.fps s = FrameTimer.Fin 0.

Lemma zero_fps_update s now : zero_fps s -> zero_fps (FrameTimer.update now s).
Proof.
  unfold zero_fps, FrameTimer.update. intros H.
  destruct (FrameTimer.running s); cbn [negb]; [|exact H].
  match goal with |- context [if ?b then FrameTimer.calculateMetrics _ else _] => destruct b end.
  - unfold FrameTimer.calculateMetrics. cbn [FrameTimer.fps FrameTimer.frameTime].
    match goal with |- context [qgt ?a 0] => destruct (qgt a 0) eqn:E end; intros Hz.
    + apply qgt_spec in E. exfalso. lra.
    + reflexivity.
  - exact H.
Qed.

Lemma zero_fps_run s ts : zero_fps s -> zero_fps (FrameTimer.run s ts).
Proof.
  revert s. induction ts as [|t ts IH]; intros s Hs; [exact Hs|].
  simpl. apply IH, zero_fps_update, Hs.
Qed.

(** C6, as stated: every frame's delta is clamped to at least about 1 ms.
    False: a frame at the same timestamp as the previous one records a
    delta of 0 ([Math.max(0, now - lastTime)]). *)
Lemma frame_delta_min_1ms_counterexample :
  ~ (forall (t0 t1 now : Q) (ts : list Q),
       exists d, FrameTimer.newest
                   (FrameTimer.update now
                      (FrameTimer.run (FrameTimer.start t1 (FrameTimer.construct t0)) ts))
                 = Some d /\ 1 <= d).
Proof.
  intros H. destruct (H 0 100 100 []) as [d [Hd Hle]].
  vm_compute in Hd. injection Hd as <-. vm_compute in Hle. apply Hle. reflexivity.
Qed.

(** C6, amended: for every sequence of frame timestamps after [start]
    (earlier or equal timestamps included), the next frame records the
    delta [max(0, now - lastTime)] (so at least 0, not 1 ms), every delta
    in the window is at least 0, and the FPS metric is a finite number at
    least 0 (0 when the mean frame time is 0). *)
Theorem frame_delta_clamped_fps_finite :
  forall (t0 t1 now : Q) (ts : list Q),
  let s := FrameTimer.run (FrameTimer.start t1 (FrameTimer.construct t0)) ts in
  FrameTimer.newest (FrameTimer.update now s) = Some (Qmax 0 (now - FrameTimer.lastTime s)) /\
  Forall (fun d => 0 <= d) (FrameTimer.frameTimes (FrameTimer.update now s)) /\
  (exists q, FrameTimer.fps (FrameTimer.update now s) = FrameTimer.Fin q /\ 0 <= q) /\
  (FrameTimer.frameTime (FrameTimer.update now s) == 0 ->
   FrameTimer.fps (FrameTimer.update now s) = FrameTimer.Fin 0).
Proof.
  intros t0 t1 now ts s.
  assert (Hs : timer_inv s) by (apply run_inv, start_inv).
  destruct (update_inv s now Hs) as (_ & Hf & Hq).
  split; [apply update_newest, Hs | split; [assumption | split; [assumption|]]].
  apply zero_fps_update. subst s. apply zero_fps_run. intros _. reflexivity.
Qed.

(** *** Capability probe *)

(** The store declares no [setPerformance] action. *)
Lemma store_has_no_setPerformance : SceneStore.has_action "setPerformance" = false.
Proof. reflexivity. Qed.

(** C5 (code bug): in a desktop environment where creating a graphics
    context throws, [deviceCapabilities.getWebGLSupport] and
    [getPerformanceTier] throw, and [detectCapabilities] ends in its
    [catch] with no device profile ([deviceInfo] stays [null]); the sibling
    [checkWebGLSupport], which wraps each [getContext] in [try], reports
    both context generations absent instead. *)
Theorem probe_throwing_context_not_contained :
  Probe.getWebGLSupport Envs.desktopThrowing = Throw "getContext"%string /\
  Probe.getPerformanceTier Envs.desktopThrowing = Throw "getContext"%string /\
  Probe.deviceInfo (Probe.detectCapabilities Envs.desktopThrowing SceneStore.initialState) = None /\
  Probe.canRun3D (Probe.detectCapabilities Envs.desktopThrowing SceneStore.initialState) = false /\
  Probe.graphicsTier (Probe.checkWebGLSupport Envs.desktopThrowing) = Probe.gt_none.
Proof. vm_compute. repeat split. Qed.

(** C7 (code bug): at cold start on a desktop whose canvases can create
    both context generations, the profile has [type = desktop], but
    [getWebGLSupport] asks for ["webgl2"] on the canvas that already holds
    a ["webgl"] context, gets [null], and so reports [webgl2 = false]
    (graphics tier basic, not advanced); with an Intel renderer the
    profile's [performanceTier] is [medium], while the store's quality stays
    at its initial [high], because the [setPerformance] that
    [detectCapabilities] calls does not exist and its TypeError is
    swallowed. *)
Theorem cold_start_profile_and_store_tier :
  let w := Probe.detectCapabilities Envs.desktopIntel SceneStore.initialState in
  option_map Probe.type (Probe.deviceInfo w) = Some Probe.desktop /\
  option_map (fun i => Probe.graphicsTier (Probe.webglSupport i)) (Probe.deviceInfo w)
    = Some Probe.gt_basic /\
  option_map Probe.performanceTier (Probe.deviceInfo w) = Some medium /\
  Probe.canRun3D w = true /\
  SceneStore.quality (SceneStore.performance (Probe.store w)) = high.
Proof. vm_compute. repeat split. Qed.

(** When the context is merely unavailable ([getContext] returns [null]),
    the probe completes: tier none, performance tier [low]. *)
Example probe_null_context_degrades :
  let env := Probe.mkEnv (Probe.userAgent Envs.desktopIntel) (fun _ => Probe.CtxNull)
                         false 1920 1080 None in
  Probe.getWebGLSupport env = Normal (Probe.mkWebGL false false 0 0 []) /\
  Probe.getPerformanceTier env = Normal low /\
  option_map (fun i => (Probe.graphicsTier (Probe.webglSupport i), Probe.performanceTier i))
    (Probe.deviceInfo (Probe.detectCapabilities env SceneStore.initialState))
    = Some (Probe.gt_none, low).
Proof. vm_compute. repeat split. Qed.

(** * Further properties of the code *)

(** *** Scene store actions *)

Lemma dispatch_slices a s :
  (StoreActions.slice_of a <> StoreActions.player_slice ->
   SceneStore.player (StoreActions.dispatch a s) = SceneStore.player s) /\
  (StoreActions.slice_of a <> StoreActions.performance_slice ->
   SceneStore.performance (StoreActions.dispatch a s) = SceneStore.performance s) /\
  (StoreActions.slice_of a <> StoreActions.ui_slice ->
   SceneStore.ui (StoreActions.dispatch a s) = SceneStore.ui s).
Proof.
  destruct a; cbn; repeat split; intros H; first [reflexivity | congruence].
Qed.

(** X1: along any sequence of store actions, a top-level slice of the
    state ([player], [performance] or [ui]) that no action of the sequence
    targets keeps its value: every action merges only its own slice. *)
Theorem store_untargeted_slices_unchanged :
  forall (s : SceneStore.SceneState) (acts : list StoreActions.Action),
  (Forall (fun a => StoreActions.slice_of a <> StoreActions.player_slice) acts ->
   SceneStore.player (StoreActions.run_actions s acts) = SceneStore.player s) /\
  (Forall (fun a => StoreActions.slice_of a <> StoreActions.performance_slice) acts ->
   SceneStore.performance (StoreActions.run_actions s acts) = SceneStore.performance s) /\
  (Forall (fun a => StoreActions.slice_of a <> StoreActions.ui_slice) acts ->
   SceneStore.ui (StoreActions.run_actions s acts) = SceneStore.ui s).
Proof.
  intros s acts. revert s.
  induction acts as [|a acts IH]; intros s; [repeat split; reflexivity|].
  destruct (dispatch_slices a s) as (Hp & Hf & Hu).
  destruct (IH (StoreActions.dispatch a s)) as (IHp & IHf & IHu).
  simpl. repeat split; intros Hall; inversion Hall; subst.
  - rewrite IHp by assumption. apply Hp; assumption.
  - rewrite IHf by assumption. apply Hf; assumption.
  - rewrite IHu by assumption. apply Hu; assumption.
Qed.

(** X2: [toggleMenu] and [toggleHUD] each undo themselves when called
    twice, commute with each other, and flip exactly their flag. *)
Theorem store_toggles_involutive :
  forall s : SceneStore.SceneState,
  StoreActions.toggleMenu (StoreActions.toggleMenu s) = s /\
  StoreActions.toggleHUD (StoreActions.toggleHUD s) = s /\
  StoreActions.toggleMenu (StoreActions.toggleHUD s)
    = StoreActions.toggleHUD (StoreActions.toggleMenu s) /\
  SceneStore.showMenu (SceneStore.ui (StoreActions.toggleMenu s))
    = negb (SceneStore.showMenu (SceneStore.ui s)) /\
  SceneStore.showHUD (SceneStore.ui (StoreActions.toggleHUD s))
    = negb (SceneStore.showHUD (SceneStore.ui s)).
Proof.
  intros [p f [h m l lp ah pl]]. cbn.
  destruct h, m; repeat split.
Qed.

Lemma setFPS_quality f s :
  SceneStore.quality (SceneStore.performance (SceneStore.setFPS f s)) =
  let p := SceneStore.performance s in
  if SceneStore.autoQuality p then
    if qlt f 30 && Quality_eqb (SceneStore.quality p) high then medium
    else if qlt f 20 && Quality_eqb (SceneStore.quality p) medium then low
    else if qgt f 50 && Quality_eqb (SceneStore.quality p) medium then high
    else if qgt f 40 && Quality_eqb (SceneStore.quality p) low then medium
    else SceneStore.quality p
  else SceneStore.quality p.
Proof. reflexivity. Qed.

Lemma setFPS_auto f s :
  SceneStore.autoQuality (SceneStore.performance (SceneStore.setFPS f s)) =
  SceneStore.autoQuality (SceneStore.performance s).
Proof. reflexivity. Qed.

Lemma setFPS_fps f s :
  SceneStore.fps (SceneStore.performance (SceneStore.setFPS f s)) = f.
Proof. reflexivity. Qed.

(** X3: once [setAutoQuality(false)] has run, no sequence of [setFPS]
    calls changes the quality tier; [autoQuality] stays off and the last
    sample given is the recorded [fps]. *)
Theorem store_manual_quality_stays :
  forall (s : SceneStore.SceneState) (fs : list Q),
  let s' := fold_left (fun st f => SceneStore.setFPS f st) fs
                      (SceneStore.setAutoQuality false s) in
  SceneStore.quality (SceneStore.performance s') = SceneStore.quality (SceneStore.performance s) /\
  SceneStore.autoQuality (SceneStore.performance s') = false /\
  (fs <> [] -> SceneStore.fps (SceneStore.performance s') = List.last fs 0).
Proof.
  intros s fs s'. subst s'.
  assert (Hgen : forall t,
    SceneStore.autoQuality (SceneStore.performance t) = false ->
    let t' := fold_left (fun st f => SceneStore.setFPS f st) fs t in
    SceneStore.quality (SceneStore.performance t') = SceneStore.quality (SceneStore.performance t) /\
    SceneStore.autoQuality (SceneStore.performance t') = false /\
    (fs <> [] -> SceneStore.fps (SceneStore.performance t') = List.last fs 0)).
  { induction fs as [|f fs IH]; intros t Ht t'; subst t'.
    - repeat split; [|congruence]. exact Ht.
    - simpl. destruct (IH (SceneStore.setFPS f t)) as (H1 & H2 & H3).
      { rewrite setFPS_auto. exact Ht. }
      rewrite setFPS_quality in H1. simpl in H1. rewrite Ht in H1.
      repeat split; [exact H1 | exact H2 |].
      intros _. destruct fs as [|g fs'].
      + reflexivity.
      + rewrite H3 by discriminate. reflexivity. }
  exact (Hgen (SceneStore.setAutoQuality false s) eq_refl).
Qed.

Lemma store_quality_settles f s :
  SceneStore.quality (SceneStore.performance
    (SceneStore.setFPS f (SceneStore.setFPS f (SceneStore.setFPS f s)))) =
  SceneStore.quality (SceneStore.performance (SceneStore.setFPS f (SceneStore.setFPS f s))).
Proof.
  destruct s as [pl [fp q a] u]; destruct a;
    [|unfold SceneStore.setFPS, SceneStore.set, SceneStore.setFPS_partial; reflexivity].
  unfold SceneStore.setFPS, SceneStore.set, SceneStore.setFPS_partial; simpl.
  destruct q;
  destruct (qlt f 30) eqn:E1, (qlt f 20) eqn:E2, (qgt f 50) eqn:E3, (qgt f 40) eqn:E4;
  simpl; try reflexivity;
  rewrite ?qlt_spec, ?qlt_false, ?qgt_spec, ?qgt_false in *; lra.
Qed.

Lemma adaptive_current f a :
  AdaptiveQuality.current (AdaptiveQuality.update a f) =
  if qlt f (AdaptiveQuality.target a - AdaptiveQuality.tolerance a) then
    match AdaptiveQuality.current a with high => medium | medium => low | low => low end
  else if qgt f (AdaptiveQuality.target a + AdaptiveQuality.tolerance a) then
    match AdaptiveQuality.current a with low => medium | medium => high | high => high end
  else AdaptiveQuality.current a.
Proof. reflexivity. Qed.

Lemma adaptive_quality_settles f a :
  let g := fun x => AdaptiveQuality.update x f in
  AdaptiveQuality.current (g (g (g a))) = AdaptiveQuality.current (g (g a)).
Proof.
  intros g. subst g. destruct a as [c t tol].
  rewrite !adaptive_current. simpl.
  destruct (qlt f (t - tol)), (qgt f (t + tol)), c; reflexivity.
Qed.

(** X4: fed the same FPS value over and over, both tier adjusters settle
    within two calls: the store's [setFPS] (with its 30/20/50/40 cut-offs)
    and [performanceOptimizer.adaptiveQuality.update] hold, from the
    second call on, the tier they reached. *)
Theorem constant_fps_settles_in_two :
  forall (f : Q) (s : SceneStore.SceneState) (a : AdaptiveQuality.t) (n : nat),
  SceneStore.quality (SceneStore.performance (Nat.iter (2 + n) (SceneStore.setFPS f) s)) =
  SceneStore.quality (SceneStore.performance (Nat.iter 2 (SceneStore.setFPS f) s)) /\
  AdaptiveQuality.current (Nat.iter (2 + n) (fun x => AdaptiveQuality.update x f) a) =
  AdaptiveQuality.current (Nat.iter 2 (fun x => AdaptiveQuality.update x f) a).
Proof.
  intros f s a n. induction n as [|n [IH1 IH2]]; [split; reflexivity|].
  replace (2 + S n)%nat with (S (2 + n)) by lia. split.
  - rewrite <- IH1. change (Nat.iter (2 + n) (SceneStore.setFPS f) s)
      with (SceneStore.setFPS f (SceneStore.setFPS f (Nat.iter n (SceneStore.setFPS f) s))).
    apply store_quality_settles.
  - rewrite <- IH2. change (Nat.iter (2 + n) (fun x => AdaptiveQuality.update x f) a)
      with (AdaptiveQuality.update (AdaptiveQuality.update
              (Nat.iter n (fun x => AdaptiveQuality.update x f) a) f) f).
    apply (adaptive_quality_settles f).
Qed.

(** X5: whatever the environment, [detectCapabilities] leaves the scene
    store as it was: the [setPerformance] it calls is not a store action,
    and the TypeError is swallowed. *)
Theorem detect_capabilities_store_unchanged :
  forall (env : Probe.Env) (st : SceneStore.SceneState),
  Probe.store (Probe.detectCapabilities env st) = st.
Proof.
  intros env st. unfold Probe.detectCapabilities.
  destruct (Probe.getWebGLSupport env); [|reflexivity].
  destruct (Probe.getPerformanceTier env); reflexivity.
Qed.

(** *** Level of detail *)

Lemma scan_nonneg d adj i acc :
  (0 <= i)%Z -> (0 <= acc)%Z -> (0 <= LOD.scan d adj i acc)%Z.
Proof.
  revert i acc. induction adj as [|t adj IH]; intros i acc Hi Hacc; simpl; [exact Hacc|].
  apply IH; [lia|]. destruct (qgt d t); lia.
Qed.

Lemma frame_in_range quality distances hyst n cur d :
  (1 <= n)%Z -> (0 <= cur < n)%Z ->
  (0 <= LOD.frame quality distances hyst n cur d < n)%Z.
Proof.
  intros Hn Hc. unfold LOD.frame.
  set (nl := LOD.naiveLOD _ _).
  assert (Hnl : (0 <= nl)%Z) by (apply scan_nonneg; lia).
  destruct (nl =? cur)%Z; [exact Hc|].
  repeat match goal with |- context [if ?b then _ else _] => destruct b end; lia.
Qed.

(** X6: with at least one child, the level committed by [LODComponent]
    stays a valid child index, [0 <= level < children.length], from the
    initial level 0 over any sequence of camera distances, whatever the
    thresholds, hysteresis and quality. *)
Theorem lod_level_valid_index :
  forall (quality : Quality) (distances : list Q) (hyst : Q) (nchildren : Z) (ds : list Q),
  (1 <= nchildren)%Z ->
  Forall (fun l => 0 <= l < nchildren)%Z
         (LOD.run quality distances hyst nchildren LOD.initialLOD ds).
Proof.
  intros quality distances hyst n ds Hn.
  assert (H0 : (0 <= LOD.initialLOD < n)%Z) by (unfold LOD.initialLOD; lia).
  revert H0. generalize LOD.initialLOD as cur.
  induction ds as [|d ds IH]; intros cur Hc; simpl; constructor; auto.
  apply IH, frame_in_range; assumption.
Qed.

Lemma lod_level_valid_index_witness :
  (1 <= 3)%Z /\
  Forall (fun l => 0 <= l < 3)%Z (LOD.run medium [20; 50] (15 # 100) 3 LOD.initialLOD [35; 60; 10]).
Proof. split; [lia | apply (lod_level_valid_index medium [20; 50] (15 # 100) 3 [35; 60; 10]); lia]. Defined.

Lemma count_above_nil d t r :
  Forall (Qle t) r -> d <= t -> length (List.filter (fun u => qgt d u) r) = 0%nat.
Proof.
  induction r as [|u r IH]; intros Hf Hd; [reflexivity|].
  inversion Hf as [|? ? Htu Hr]; subst. simpl.
  qcase (qgt d u); [lra|]. apply IH; assumption.
Qed.

Lemma scan_sorted d l i acc :
  StronglySorted Qle l ->
  LOD.scan d l i acc =
  (if (length (List.filter (fun t => qgt d t) l) =? 0)%nat then acc
   else i + Z.of_nat (length (List.filter (fun t => qgt d t) l)))%Z.
Proof.
  revert i acc. induction l as [|t l IH]; intros i acc Hs; [reflexivity|].
  inversion Hs as [|? ? Hl Hf]; subst. simpl.
  qcase (qgt d t).
  - rewrite IH by exact Hl. simpl.
    destruct (length _ =? 0)%nat eqn:Ez; [apply Nat.eqb_eq in Ez; rewrite Ez|]; lia.
  - rewrite IH by exact Hl. rewrite (count_above_nil d t l Hf E). reflexivity.
Qed.

(** X7: when the thresholds are in ascending order, the target level that
    [LODComponent]'s loop computes ([newLOD = i + 1] for every threshold
    exceeded) is the number of thresholds the distance exceeds. *)
Theorem lod_target_counts_thresholds :
  forall (distance : Q) (adj : list Q),
  StronglySorted Qle adj ->
  LOD.naiveLOD distance adj = Z.of_nat (length (List.filter (fun t => qgt distance t) adj)).
Proof.
  intros d adj Hs. unfold LOD.naiveLOD. rewrite scan_sorted by exact Hs.
  destruct (length _ =? 0)%nat eqn:Ez; [apply Nat.eqb_eq in Ez; rewrite Ez|]; lia.
Qed.

Lemma lod_target_counts_thresholds_witness :
  StronglySorted Qle [20; 50; 90] /\
  LOD.naiveLOD 60 [20; 50; 90] = Z.of_nat (length (List.filter (fun t => qgt 60 t) [20; 50; 90])).
Proof.
  assert (Hs : StronglySorted Qle [20; 50; 90]).
  { repeat constructor; unfold Qle; simpl; lia. }
  split; [exact Hs | apply (lod_target_counts_thresholds 60 [20; 50; 90] Hs)].
Defined.

(** X8: [lodSystem.getDistanceLOD] never gives more detail to a farther
    object: if [d1 <= d2], the tier for [d2] is at most the tier for [d1]. *)
Theorem distance_lod_monotone :
  forall d1 d2 : Q, d1 <= d2 ->
  (detail (LodSystem.getDistanceLOD d2) <= detail (LodSystem.getDistanceLOD d1))%nat.
Proof.
  intros d1 d2 Hle. unfold LodSystem.getDistanceLOD.
  qcase (qlt d2 20); qcase (qlt d1 20); simpl; try lia;
  qcase (qlt d2 50); qcase (qlt d1 50); simpl; try lia; lra.
Qed.

Lemma distance_lod_monotone_witness :
  10 <= 30 /\ (detail (LodSystem.getDistanceLOD 30) <= detail (LodSystem.getDistanceLOD 10))%nat.
Proof.
  assert (H : 10 <= 30) by (unfold Qle; simpl; lia).
  split; [exact H | apply (distance_lod_monotone 10 30 H)].
Defined.

Lemma Qfloor_nonneg q : 0 <= q -> (0 <= Qfloor q)%Z.
Proof. intros H. change 0%Z with (Qfloor 0). apply Qfloor_resp_le, H. Qed.

(** X9: for a non-negative base count, [lodSystem.getParticleCount] is at
    least 0, never decreases from [low] to [medium] to [high], and never
    exceeds the base count. *)
Theorem particle_counts_ordered :
  forall base : Q, 0 <= base ->
  (0 <= LodSystem.getParticleCount base low)%Z /\
  (LodSystem.getParticleCount base low <= LodSystem.getParticleCount base medium
     <= LodSystem.getParticleCount base high)%Z /\
  inject_Z (LodSystem.getParticleCount base high) <= base.
Proof.
  intros b Hb. unfold LodSystem.getParticleCount, LodSystem.multiplier.
  repeat split.
  - apply Qfloor_nonneg. lra.
  - apply Qfloor_resp_le. lra.
  - apply Qfloor_resp_le. lra.
  - apply Qle_trans with (b * 1); [apply Qfloor_le | lra].
Qed.

Lemma particle_counts_ordered_witness :
  0 <= 45 /\
  (0 <= LodSystem.getParticleCount 45 low)%Z /\
  (LodSystem.getParticleCount 45 low <= LodSystem.getParticleCount 45 medium
     <= LodSystem.getParticleCount 45 high)%Z /\
  inject_Z (LodSystem.getParticleCount 45 high) <= 45.
Proof.
  assert (H : 0 <= 45) by (unfold Qle; simpl; lia).
  split; [exact H | apply (particle_counts_ordered 45 H)].
Defined.

Lemma maxInstances_nonneg q n : (0 <= n)%Z -> (0 <= Instanced.maxInstances q n)%Z.
Proof. intros Hn. destruct q; simpl; lia. Qed.

Lemma count_eq {A} (positions : list A) q :
  Instanced.count positions q =
  Z.min (Instanced.maxInstances q (Z.of_nat (length positions))) (Z.of_nat (length positions)).
Proof.
  unfold Instanced.count, Instanced.actualPositions, Instanced.slice0.
  pose proof (maxInstances_nonneg q (Z.of_nat (length positions)) (Nat2Z.is_nonneg _)) as H.
  destruct (_ <? 0)%Z eqn:E; [apply Z.ltb_lt in E; lia|].
  rewrite length_firstn, Nat2Z.inj_min, Z2Nat.id by exact H. reflexivity.
Qed.

(** X10: [InstancedMesh] draws at most as many instances as positions,
    never more on a lower tier ([low <= medium <= high], [high] drawing
    them all), at least one when there is a position, and never more than
    the capacity [Math.max(1, maxInstances)] it allocates. *)
Theorem instance_counts_ordered :
  forall (A : Type) (positions : list A),
  let c := Instanced.count positions in
  (c low <= c medium <= c high)%Z /\
  c high = Z.of_nat (length positions) /\
  (positions <> [] -> (1 <= c low)%Z) /\
  (forall q, c q <= Instanced.capacity positions q)%Z.
Proof.
  intros A ps c. subst c. unfold Instanced.capacity.
  assert (Hne : ps <> [] -> (1 <= Z.of_nat (length ps))%Z).
  { destruct ps; simpl; [congruence | lia]. }
  assert (Hc := fun q => count_eq ps q).
  set (n := Z.of_nat (length ps)) in *.
  assert (Hn : (0 <= n)%Z) by apply Nat2Z.is_nonneg.
  assert (H3 : (Qfloor (inject_Z n * (3 # 10)) <= Qfloor (inject_Z n * (6 # 10)))%Z).
  { apply Qfloor_resp_le. assert (0 <= inject_Z n) by (change 0 with (inject_Z 0); rewrite <- Zle_Qle; lia). lra. }
  rewrite !Hc. unfold Instanced.maxInstances.
  set (f3 := Qfloor (inject_Z n * (3 # 10))) in *.
  set (f6 := Qfloor (inject_Z n * (6 # 10))) in *.
  split; [lia|split; [lia|split]].
  - intros Hp. specialize (Hne Hp). lia.
  - intros q. rewrite Hc. destruct q; unfold Instanced.maxInstances; lia.
Qed.

(** *** Object pool *)

Section PoolProofs.

Context {T : Type} (createFn : T) (resetFn : T -> outcome T).

Lemma repeat_snoc (c : T) n : repeat c n ++ [c] = c :: repeat c n.
Proof. induction n as [|n IH]; simpl; [reflexivity | now rewrite IH]. Qed.

Lemma fill_spec n s : PoolUse.fill createFn n s = (Normal tt, s ++ repeat createFn n).
Proof.
  revert s. induction n as [|n IH]; intros s; simpl.
  - rewrite app_nil_r. reflexivity.
  - unfold Pool.bind. rewrite IH. unfold Pool.push.
    rewrite <- app_assoc, repeat_snoc. reflexivity.
Qed.

Lemma release_spec obj s :
  Pool.release resetFn obj s =
  (Normal tt, match resetFn obj with Normal o => s ++ [o] | Throw _ => s end).
Proof.
  unfold Pool.release, Pool.try_catch, Pool.bind, Pool.lift, Pool.push, Pool.ret.
  destruct (resetFn obj); reflexivity.
Qed.

Lemma cycle_spec s :
  fst (PoolUse.cycle createFn resetFn s) = Normal tt /\
  (length (snd (PoolUse.cycle createFn resetFn s)) <= Nat.max 1 (length s))%nat.
Proof.
  unfold PoolUse.cycle, Pool.bind, Pool.get.
  destruct (rev s) as [|x r] eqn:Hr.
  - apply (f_equal (@rev T)) in Hr. rewrite rev_involutive in Hr. subst s.
    rewrite release_spec. split; [reflexivity|]. simpl.
    destruct (resetFn createFn); simpl; lia.
  - rewrite release_spec. split; [reflexivity|].
    assert (Hl : length s = S (length r)).
    { rewrite <- length_rev, Hr. reflexivity. }
    simpl. destruct (resetFn x); simpl;
      rewrite ?length_app, length_rev; simpl; lia.
Qed.

End PoolProofs.

(** X11: the [ObjectPool] constructor fills the pool with [initialSize]
    created objects (none for a size at most 0), and any number of
    borrow-and-return rounds [release(get())] never throws, even when
    [resetFn] throws, and never grows the pool beyond the larger of 1 and
    its size before the rounds. *)
Theorem pool_rounds_bounded :
  forall (T : Type) (createFn : T) (resetFn : T -> outcome T) (initialSize : Z)
         (n : nat) (s : list T),
  PoolUse.construct createFn initialSize = repeat createFn (Z.to_nat initialSize) /\
  fst (PoolUse.cycles createFn resetFn n s) = Normal tt /\
  (length (snd (PoolUse.cycles createFn resetFn n s)) <= Nat.max 1 (length s))%nat.
Proof.
  intros T c r init n s. split.
  - unfold PoolUse.construct. rewrite fill_spec. reflexivity.
  - revert s. induction n as [|n IH]; intros s; [simpl; split; [reflexivity | lia]|].
    simpl. unfold Pool.bind.
    destruct (cycle_spec c r s) as [Hf Hl].
    destruct (PoolUse.cycle c r s) as [o s'] eqn:E. simpl in Hf, Hl. subst o.
    destruct (IH s') as [IH1 IH2]. split; [exact IH1 | lia].
Qed.

(** X12: returning an object whose reset succeeds and then borrowing
    gives back that object (after its reset) and leaves the pool as it
    was; after [clear()], [get()] creates a new object and the pool stays
    empty. *)
Theorem pool_release_get_roundtrip :
  forall (T : Type) (createFn : T) (resetFn : T -> outcome T) (obj obj' : T) (s : list T),
  resetFn obj = Normal obj' ->
  Pool.bind (Pool.release resetFn obj) (fun _ => Pool.get createFn) s = (Normal obj', s) /\
  Pool.bind Pool.clear (fun _ => Pool.get createFn) s = (Normal createFn, []).
Proof.
  intros T c r obj obj' s Hr. split.
  - unfold Pool.bind. rewrite release_spec, Hr. unfold Pool.get.
    rewrite rev_unit, rev_involutive. reflexivity.
  - reflexivity.
Qed.

Lemma pool_release_get_roundtrip_witness :
  (fun v : Z => Normal 0%Z) 7%Z = Normal 0%Z /\
  Pool.bind (Pool.release (fun v : Z => Normal 0%Z) 7%Z) (fun _ => Pool.get 1%Z) [3%Z; 4%Z]
    = (Normal 0%Z, [3%Z; 4%Z]) /\
  Pool.bind Pool.clear (fun _ => Pool.get 1%Z) [3%Z; 4%Z] = (Normal 1%Z, []).
Proof.
  split; [reflexivity|].
  apply (pool_release_get_roundtrip Z 1%Z (fun _ => Normal 0%Z) 7%Z 0%Z [3%Z; 4%Z]).
  reflexivity.
Defined.

(** *** Texture atlas *)

Lemma qdiv_add a b w : a / w + b / w == (a + b) / w.
Proof. unfold Qdiv. ring. Qed.

Lemma qdiv_le a b w : 0 < w -> a <= b -> a / w <= b / w.
Proof.
  intros Hw Hab. unfold Qdiv. apply Qmult_le_compat_r; [exact Hab|].
  apply Qlt_le_weak, Qinv_lt_0_compat, Hw.
Qed.

(** Every placed region is above the current row, or inside it and left
    of the cursor; no two placed regions overlap. *)
Definition atlas_inv (a : Atlas.TextureAtlas) : Prop :=
  0 <= Atlas.rowHeight a /\
  (forall n r, Atlas.regions a !! n = Some r ->
     Atlas.y r + Atlas.height r <= Atlas.currentY a / Atlas.canvasHeight a \/
     (Atlas.y r + Atlas.height r <= (Atlas.currentY a + Atlas.rowHeight a) / Atlas.canvasHeight a /\
      Atlas.x r + Atlas.width r <= Atlas.currentX a / Atlas.canvasWidth a)) /\
  (forall n1 n2 r1 r2, n1 <> n2 ->
     Atlas.regions a !! n1 = Some r1 -> Atlas.regions a !! n2 = Some r2 ->
     Atlas.apart r1 r2).

Lemma place_inv (W H : Q) (regs : gmap string Atlas.Region) (name : string)
    (cx cy rh w h : Q) :
  0 < W -> 0 < H -> 0 <= w -> 0 <= rh ->
  (forall n r, regs !! n = Some r ->
     Atlas.y r + Atlas.height r <= cy / H \/
     (Atlas.y r + Atlas.height r <= (cy + rh) / H /\ Atlas.x r + Atlas.width r <= cx / W)) ->
  (forall n1 n2 r1 r2, n1 <> n2 -> regs !! n1 = Some r1 -> regs !! n2 = Some r2 ->
     Atlas.apart r1 r2) ->
  atlas_inv (Atlas.mkAtlas W H
               (<[name := Atlas.mkRegion (cx / W) (cy / H) (w / W) (h / H)]> regs)
               (cx + w) cy (Qmax rh h)).
Proof.
  intros HW HH Hw Hrh Hpos Hap. unfold atlas_inv; simpl. split; [|split].
  - apply Qle_trans with rh; [exact Hrh | apply Q.le_max_l].
  - intros n r Hn. apply lookup_insert_Some in Hn as [[<- <-] | [_ Hn]]; simpl.
    + right. split.
      * rewrite qdiv_add. apply qdiv_le; [exact HH|]. pose proof (Q.le_max_r rh h). lra.
      * rewrite qdiv_add. apply Qle_refl.
    + destruct (Hpos n r Hn) as [Hl | [Hr1 Hr2]]; [left; exact Hl | right; split].
      * apply Qle_trans with ((cy + rh) / H); [exact Hr1|].
        apply qdiv_le; [exact HH|]. pose proof (Q.le_max_l rh h). lra.
      * apply Qle_trans with (cx / W); [exact Hr2|]. apply qdiv_le; [exact HW | lra].
  - intros n1 n2 r1 r2 Hne H1 H2.
    apply lookup_insert_Some in H1 as [[<- <-] | [Hne1 H1]];
    apply lookup_insert_Some in H2 as [[<- <-] | [Hne2 H2]].
    + congruence.
    + unfold Atlas.apart; simpl.
      destruct (Hpos n2 r2 H2) as [Hl | [_ Hr]]; [right; right; right; exact Hl|].
      right; left; exact Hr.
    + unfold Atlas.apart; simpl.
      destruct (Hpos n1 r1 H1) as [Hl | [_ Hr]]; [right; right; left; exact Hl|].
      left; exact Hr.
    + exact (Hap n1 n2 r1 r2 Hne H1 H2).
Qed.

Lemma addTexture_inv name w h a :
  0 < Atlas.canvasWidth a -> 0 < Atlas.canvasHeight a -> 0 <= w ->
  atlas_inv a -> atlas_inv (Atlas.addTexture name w h a).
Proof.
  intros HW HH Hw (Hrh & Hpos & Hap). unfold Atlas.addTexture.
  destruct (Qeq_bool w 0 || Qeq_bool h 0); [repeat split; assumption|].
  destruct (qgt (Atlas.currentX a + w) (Atlas.canvasWidth a)).
  - apply place_inv; try assumption; [apply Qle_refl|].
    intros n r Hn. left.
    destruct (Hpos n r Hn) as [Hl | [Hr _]].
    + apply Qle_trans with (Atlas.currentY a / Atlas.canvasHeight a); [exact Hl|].
      apply qdiv_le; [exact HH | lra].
    + exact Hr.
  - apply place_inv; assumption.
Qed.

Lemma addAll_inv a images :
  0 < Atlas.canvasWidth a -> 0 < Atlas.canvasHeight a ->
  Forall (fun '(_, w, h) => 0 <= w /\ 0 <= h) images ->
  atlas_inv a -> atlas_inv (Atlas.addAll a images).
Proof.
  revert a. induction images as [|[[n w] h] images IH]; intros a HW HH Himg Ha; [exact Ha|].
  inversion Himg as [|? ? Hx Hrest]; subst. simpl in Hx. destruct Hx as [Hw _].
  unfold Atlas.addAll; simpl. apply IH; try assumption.
  - unfold Atlas.addTexture. destruct (_ || _); [exact HW|].
    destruct (qgt _ _); exact HW.
  - unfold Atlas.addTexture. destruct (_ || _); [exact HH|].
    destruct (qgt _ _); exact HH.
  - apply addTexture_inv; assumption.
Qed.

(** X13: on a canvas of positive size, textures of non-negative size
    added under distinct names get regions that never overlap: any two
    regions in the atlas are apart along the x or the y axis. *)
Theorem atlas_regions_disjoint :
  forall (W H : Q) (images : list (string * Q * Q)),
  0 < W -> 0 < H ->
  Forall (fun '(_, w, h) => 0 <= w /\ 0 <= h) images ->
  forall (n1 n2 : string) (r1 r2 : Atlas.Region),
  n1 <> n2 ->
  Atlas.regions (Atlas.addAll (Atlas.construct W H) images) !! n1 = Some r1 ->
  Atlas.regions (Atlas.addAll (Atlas.construct W H) images) !! n2 = Some r2 ->
  Atlas.apart r1 r2.
Proof.
  intros W H images HW HH Himg.
  assert (Hinv : atlas_inv (Atlas.addAll (Atlas.construct W H) images)).
  { apply addAll_inv; try assumption.
    unfold atlas_inv; simpl. split; [apply Qle_refl | split].
    - intros n r Hn. rewrite lookup_empty in Hn. discriminate.
    - intros n1 n2 r1 r2 _ Hn. rewrite lookup_empty in Hn. discriminate. }
  destruct Hinv as (_ & _ & Hap). exact Hap.
Qed.

Lemma atlas_regions_disjoint_witness :
  let images := [("brick", 600, 100); ("glass", 600, 50); ("metal", 300, 80)]%string in
  Atlas.apart (Atlas.mkRegion (0 / 1024) (0 / 1024) (600 / 1024) (100 / 1024))
              (Atlas.mkRegion (0 / 1024) (100 / 1024) (600 / 1024) (50 / 1024)).
Proof.
  intros images.
  refine (atlas_regions_disjoint 1024 1024 images _ _ _ "brick" "glass" _ _ _ _ _);
    try (unfold Qlt; simpl; lia); try discriminate; try reflexivity.
  repeat constructor; unfold Qle; simpl; lia.
Defined.

(** X14: [getUVs] gives [null] for a name never added; [addTexture] with a
    zero width or height changes nothing; otherwise the name's UVs are the
    four corners of its new region, of the texture's size relative to the
    canvas, and the UVs of every other name are unchanged. *)
Theorem atlas_getUVs_after_add :
  forall (a : Atlas.TextureAtlas) (name : string) (w h : Q),
  (forall other, Atlas.getUVs other (Atlas.construct (Atlas.canvasWidth a) (Atlas.canvasHeight a)) = None) /\
  (w == 0 \/ h == 0 -> Atlas.addTexture name w h a = a) /\
  (~ w == 0 -> ~ h == 0 ->
   exists u v,
     Atlas.getUVs name (Atlas.addTexture name w h a) =
     Some [u; v + h / Atlas.canvasHeight a; u + w / Atlas.canvasWidth a; v + h / Atlas.canvasHeight a;
           u + w / Atlas.canvasWidth a; v; u; v]) /\
  (forall other, other <> name ->
   Atlas.getUVs other (Atlas.addTexture name w h a) = Atlas.getUVs other a).
Proof.
  intros a name w h. split; [|split; [|split]].
  - intros other. reflexivity.
  - intros Hz. unfold Atlas.addTexture.
    destruct Hz as [Hz | Hz]; apply Qeq_bool_iff in Hz; rewrite Hz;
      [reflexivity | rewrite orb_true_r; reflexivity].
  - intros Hw Hh. unfold Atlas.addTexture.
    destruct (Qeq_bool w 0) eqn:Ew; [apply Qeq_bool_iff in Ew; contradiction|].
    destruct (Qeq_bool h 0) eqn:Eh; [apply Qeq_bool_iff in Eh; contradiction|]. simpl.
    destruct (qgt _ _); unfold Atlas.getUVs; simpl; rewrite lookup_insert_eq; eauto.
  - intros other Hne. unfold Atlas.addTexture.
    destruct (_ || _); [reflexivity|].
    destruct (qgt _ _); unfold Atlas.getUVs; simpl; rewrite lookup_insert_ne by congruence;
      reflexivity.
Qed.

(** *** Update callbacks *)

Section CallbackProofs.

Context {CB : Type} (same : CB -> CB -> bool).

Definition reg_inv (r : @Callbacks.Registry CB) : Prop :=
  List.NoDup (Callbacks.keys r) /\
  Forall (fun k => (k <= Callbacks.callbackIdCounter r)%Z) (Callbacks.keys r).

Lemma keys_delete k (l : list (Z * CB)) :
  map fst (Callbacks.map_delete k l) = List.filter (fun k' => negb (Z.eqb k' k)) (map fst l).
Proof.
  induction l as [|[k' v] l IH]; [reflexivity|]. simpl.
  destruct (Z.eqb k' k); simpl; [exact IH | now rewrite IH].
Qed.

Lemma delete_absent k (l : list (Z * CB)) :
  ~ In k (map fst l) -> Callbacks.map_delete k l = l.
Proof.
  induction l as [|[k' v] l IH]; intros Hn; [reflexivity|]. simpl in *.
  destruct (Z.eqb_spec k' k); [tauto|]. simpl. rewrite IH by tauto. reflexivity.
Qed.

Lemma delete_inv k r :
  reg_inv r -> reg_inv (Callbacks.mkRegistry (Callbacks.callbackIdCounter r)
                                              (Callbacks.map_delete k (Callbacks.callbacks r))).
Proof.
  intros [Hnd Hb]. unfold reg_inv, Callbacks.keys in *. simpl. rewrite keys_delete. split.
  - apply List.NoDup_filter, Hnd.
  - apply List.Forall_forall. intros x Hx. apply List.filter_In in Hx as [Hx _].
    rewrite List.Forall_forall in Hb. apply Hb, Hx.
Qed.

Lemma fresh_not_in r :
  reg_inv r -> ~ In (Callbacks.callbackIdCounter r + 1)%Z (Callbacks.keys r).
Proof.
  intros [_ Hb] Hin. rewrite List.Forall_forall in Hb. specialize (Hb _ Hin). lia.
Qed.

Lemma onUpdate_callbacks cb r :
  reg_inv r ->
  Callbacks.callbacks (snd (Callbacks.onUpdate cb r)) =
  Callbacks.callbacks r ++ [((Callbacks.callbackIdCounter r + 1)%Z, cb)].
Proof.
  intros Hi. pose proof (fresh_not_in r Hi) as Hf. simpl. unfold Callbacks.map_set.
  destruct (existsb _ _) eqn:E; [|reflexivity].
  apply existsb_exists in E as [[k v] [Hin Hk]]. simpl in Hk. apply Z.eqb_eq in Hk. subst k.
  exfalso. apply Hf. unfold Callbacks.keys. apply (in_map fst) in Hin. exact Hin.
Qed.

Lemma exec_inv r o : reg_inv r -> reg_inv (Callbacks.exec same r o).
Proof.
  intros Hi. destruct o as [cb | id | cb]; [change (reg_inv (snd (Callbacks.onUpdate cb r))) | simpl..].
  - pose proof (fresh_not_in r Hi) as Hf.
    unfold reg_inv, Callbacks.keys. rewrite (onUpdate_callbacks cb r Hi).
    destruct Hi as [Hnd Hb]. unfold reg_inv, Callbacks.keys in *. simpl.
    rewrite map_app. simpl. split.
    + apply List.NoDup_app; [exact Hnd | repeat constructor; auto |].
      intros x Hx Hx'. destruct Hx' as [<- | []]. contradiction.
    + apply List.Forall_app. split; [|repeat constructor; lia].
      eapply List.Forall_impl; [|exact Hb]. intros a Ha. simpl in Ha. lia.
  - apply delete_inv, Hi.
  - unfold Callbacks.removeCallback.
    destruct (find _ _) as [[id c] |]; [apply delete_inv, Hi | exact Hi].
Qed.

Lemma run_inv_cb ops : reg_inv (Callbacks.run same ops).
Proof.
  unfold Callbacks.run.
  assert (H0 : reg_inv (@Callbacks.empty CB)) by (split; constructor).
  revert H0. generalize (@Callbacks.empty CB) as r.
  induction ops as [|o ops IH]; intros r Hr; [exact Hr|]. simpl. apply IH, exec_inv, Hr.
Qed.

Lemma find_split (f : Z * CB -> bool) l p :
  find f l = Some p ->
  exists pre post, l = pre ++ p :: post /\ f p = true /\ Forall (fun q => f q = false) pre.
Proof.
  induction l as [|q l IH]; intros H; [discriminate|]. simpl in H.
  destruct (f q) eqn:Eq.
  - injection H as <-. exists [], l. repeat split; [exact Eq | constructor].
  - destruct (IH H) as (pre & post & -> & Hp & Hpre).
    exists (q :: pre), post. repeat split; [exact Hp | constructor; assumption].
Qed.

Lemma find_none (f : Z * CB -> bool) l :
  find f l = None -> Forall (fun q => f q = false) l.
Proof.
  induction l as [|q l IH]; intros H; [constructor|]. simpl in H.
  destruct (f q) eqn:Eq; [discriminate|]. constructor; [exact Eq | apply IH, H].
Qed.

End CallbackProofs.

(** X15: in every registry reached by [onUpdate], [removeCallbackById]
    and [removeCallback] calls, [onUpdate] hands out an id that no
    registered callback holds, appends the callback last in notification
    order, and [removeCallbackById] of that id restores the callbacks as
    they were. *)
Theorem callbacks_fresh_id_roundtrip :
  forall (CB : Type) (same : CB -> CB -> bool) (ops : list (Callbacks.Op)) (cb : CB),
  let r := Callbacks.run same ops in
  let '(id, r') := Callbacks.onUpdate cb r in
  ~ In id (Callbacks.keys r) /\
  Callbacks.callbacks r' = Callbacks.callbacks r ++ [(id, cb)] /\
  List.NoDup (Callbacks.keys r') /\
  Callbacks.callbacks (Callbacks.removeCallbackById id r') = Callbacks.callbacks r.
Proof.
  intros CB same ops cb r.
  pose proof (run_inv_cb same ops) as Hi. fold r in Hi.
  pose proof (fresh_not_in r Hi) as Hf.
  pose proof (onUpdate_callbacks cb r Hi) as Hc.
  destruct (exec_inv same r (Callbacks.OnUpdate cb) Hi) as [Hnd _].
  change (Callbacks.exec same r (Callbacks.OnUpdate cb)) with (snd (Callbacks.onUpdate cb r)) in Hnd.
  change (Callbacks.onUpdate cb r)
    with ((Callbacks.callbackIdCounter r + 1)%Z, snd (Callbacks.onUpdate cb r)).
  cbv beta iota.
  set (r' := snd (Callbacks.onUpdate cb r)) in *.
  split; [exact Hf|]. split; [exact Hc|]. split; [exact Hnd|].
  unfold Callbacks.removeCallbackById. cbn [Callbacks.callbacks]. rewrite Hc.
  unfold Callbacks.map_delete. rewrite List.filter_app.
  change (Callbacks.map_delete (Callbacks.callbackIdCounter r + 1) (Callbacks.callbacks r) ++
          List.filter (fun p : Z * CB => negb (fst p =? Callbacks.callbackIdCounter r + 1)%Z)
            [((Callbacks.callbackIdCounter r + 1)%Z, cb)] = Callbacks.callbacks r).
  rewrite (delete_absent same) by exact Hf. simpl. rewrite Z.eqb_refl. apply app_nil_r.
Qed.

(** X16: [removeCallback(cb)] removes exactly one registration, the
    earliest one holding [cb], and keeps every other entry in order; with
    no registration of [cb] it changes nothing. *)
Theorem callbacks_remove_first_only :
  forall (CB : Type) (same : CB -> CB -> bool) (ops : list (Callbacks.Op)) (cb : CB),
  let r := Callbacks.run same ops in
  (Forall (fun p => same (snd p) cb = false) (Callbacks.callbacks r) /\
   Callbacks.removeCallback same cb r = r) \/
  (exists pre id c post,
     Callbacks.callbacks r = pre ++ (id, c) :: post /\ same c cb = true /\
     Forall (fun p => same (snd p) cb = false) pre /\
     Callbacks.callbacks (Callbacks.removeCallback same cb r) = pre ++ post).
Proof.
  intros CB same ops cb r.
  pose proof (run_inv_cb same ops) as [Hnd _]. fold r in Hnd.
  unfold Callbacks.removeCallback.
  destruct (find (fun p => same (snd p) cb) (Callbacks.callbacks r)) as [[id c] |] eqn:E.
  - right. destruct (find_split _ _ _ E) as (pre & post & Hl & Hp & Hpre).
    exists pre, id, c, post. repeat split; try assumption.
    simpl. rewrite Hl. unfold Callbacks.keys in Hnd. rewrite Hl, map_app in Hnd. simpl in Hnd.
    apply NoDup_remove_2 in Hnd.
    unfold Callbacks.map_delete. rewrite List.filter_app. simpl. rewrite Z.eqb_refl. simpl.
    change (Callbacks.map_delete id pre ++ Callbacks.map_delete id post = pre ++ post).
    rewrite !(delete_absent same); [reflexivity | |]; intros Hin; apply Hnd; apply in_or_app; auto.
  - left. split; [apply find_none, E | reflexivity].
Qed.

(** *** [performanceMonitor] of performanceUtils.ts *)

(** X17: [performanceMonitor.endFrame] changes [fps] and [lastTime] only
    on frames whose count is a multiple of 60; on such a frame the FPS is
    [Infinity] when the 60 frames took no time (equal timestamps), a
    finite number at least 0 when time went forward, and at most 0 when
    the clock went back. *)
Theorem endFrame_fps_cases :
  forall (pm : Monitor.PM) (startTime now : Q),
  let pm' := Monitor.endFrame startTime now pm in
  Monitor.frameCount pm' = (Monitor.frameCount pm + 1)%Z /\
  (((Monitor.frameCount pm + 1) mod 60 <> 0)%Z ->
   Monitor.fps pm' = Monitor.fps pm /\ Monitor.lastTime pm' = Monitor.lastTime pm) /\
  (((Monitor.frameCount pm + 1) mod 60 = 0)%Z ->
   Monitor.lastTime pm' = now /\
   (now == Monitor.lastTime pm -> Monitor.fps pm' = FrameTimer.PosInf) /\
   (Monitor.lastTime pm < now -> exists q, Monitor.fps pm' = FrameTimer.Fin q /\ 0 <= q) /\
   (now < Monitor.lastTime pm -> exists q, Monitor.fps pm' = FrameTimer.Fin q /\ q <= 0)).
Proof.
  intros pm st now pm'. subst pm'. unfold Monitor.endFrame.
  destruct (((Monitor.frameCount pm + 1) mod 60 =? 0)%Z) eqn:E.
  - apply Z.eqb_eq in E. split; [reflexivity|]. split; [intros H; contradiction|].
    intros _. simpl. split; [reflexivity|]. unfold FrameTimer.js_div.
    repeat split.
    + intros Heq. assert (Hz : Qeq_bool (now - Monitor.lastTime pm) 0 = true)
        by (apply Qeq_bool_iff; lra).
      rewrite Hz. reflexivity.
    + intros Hlt. assert (Hz : Qeq_bool (now - Monitor.lastTime pm) 0 = false).
      { apply Bool.not_true_iff_false. intros Hq. apply Qeq_bool_iff in Hq. lra. }
      rewrite Hz. eexists; split; [reflexivity|]. apply round_nonneg.
      apply Qle_shift_div_l; lra.
    + intros Hlt. assert (Hz : Qeq_bool (now - Monitor.lastTime pm) 0 = false).
      { apply Bool.not_true_iff_false. intros Hq. apply Qeq_bool_iff in Hq. lra. }
      rewrite Hz. eexists; split; [reflexivity|].
      assert (Hneg : 60000 / (now - Monitor.lastTime pm) <= 0).
      { assert (Hx : 60000 / (now - Monitor.lastTime pm) * (now - Monitor.lastTime pm) == 60000)
          by (field; lra).
        set (x := 60000 / (now - Monitor.lastTime pm)) in *. nra. }
      change 0 with (inject_Z 0). rewrite <- Zle_Qle.
      change 0%Z with (Qfloor (1 # 2)). apply Qfloor_resp_le. lra.
  - apply Z.eqb_neq in E. split; [reflexivity|]. split; [intros _; split; reflexivity|].
    intros H; contradiction.
Qed.

(** X18: [shouldReduceQuality] and [shouldIncreaseQuality] are never both
    true, whatever the FPS value ([Infinity] and [NaN] included) and frame
    time. *)
Theorem quality_advice_exclusive :
  forall pm : Monitor.PM,
  ~ (Monitor.shouldReduceQuality pm = true /\ Monitor.shouldIncreaseQuality pm = true).
Proof.
  intros [c lt f ft] [Hr Hi]. unfold Monitor.shouldReduceQuality, Monitor.shouldIncreaseQuality in *.
  simpl in *. apply andb_true_iff in Hi as [Hf Hft]. apply qlt_spec in Hft.
  apply orb_true_iff in Hr as [Hf' | Hft'].
  - destruct f as [q| | |]; simpl in *; try discriminate.
    apply qlt_spec in Hf'. apply qgt_spec in Hf. lra.
  - apply qgt_spec in Hft'. lra.
Qed.

(** *** On-screen FPS overlay *)

(** X19: the overlay's [useFrame] callback always shows a finite FPS: a
    frame at the same timestamp as the previous one (or the first, before
    any timestamp is stored) counts as a 16 ms frame, shown as 63; and it
    always stores the current timestamp. *)
Theorem overlay_fps_finite :
  forall (r : Overlay.Refs) (now : Q),
  Overlay.lastTimeRef (fst (Overlay.frame now r)) = Some now /\
  (forall n, snd (Overlay.frame now r) = Some n -> exists q, n = FrameTimer.Fin q) /\
  (default now (Overlay.lastTimeRef r) == now ->
   forall n, snd (Overlay.frame now r) = Some n -> n = FrameTimer.Fin 63).
Proof.
  intros r now. unfold Overlay.frame.
  set (d := now - default now (Overlay.lastTimeRef r)).
  destruct (Qeq_bool d 0) eqn:Ed; destruct (qgt _ 250); simpl;
    (split; [reflexivity|]); split; intros; try discriminate.
  - injection H as <-. eexists; reflexivity.
  - injection H0 as <-. reflexivity.
  - injection H as <-. unfold FrameTimer.js_div. rewrite Ed. eexists; reflexivity.
  - exfalso. assert (Hz : d == 0) by (unfold d; lra).
    apply Qeq_bool_iff in Hz. congruence.
Qed.

(** *** Performance score and test analysis (part_003) *)

(** X20: for non-negative metrics, [getPerformanceScore] is between 0 and
    100 whatever the budget; the [Math.max(1, ...)] guards keep every
    ratio finite, also for budgets of 0. *)
Theorem performance_score_bounded :
  forall (m : Scores.PerformanceMetrics) (b : Scores.PerformanceBudget),
  0 <= Scores.fps m -> 0 <= Scores.memoryUsage m ->
  0 <= Scores.drawCalls m -> 0 <= Scores.triangles m ->
  (0 <= Scores.getPerformanceScore m b <= 100)%Z.
Proof.
  intros m b Hf Hm Hd Ht. unfold Scores.getPerformanceScore, Scores.round.
  assert (Hpos : forall u t, 0 <= u -> 0 <= u / Qmax 1 t).
  { intros u t Hu. apply Qle_shift_div_l; [|lra].
    apply Qlt_le_trans with 1; [reflexivity | apply Q.le_max_l]. }
  assert (Hmin : forall u, 0 <= u -> 0 <= Qmin u 1 <= 1).
  { intros u Hu. split; [apply Q.min_glb; [exact Hu | discriminate] | apply Q.le_min_r]. }
  assert (Hmax : forall u, 0 <= u -> 0 <= Qmax (1 - u) 0 <= 1).
  { intros u Hu. split; [apply Q.le_max_r | apply Q.max_lub; [lra | discriminate]]. }
  pose proof (Hmin _ (Hpos _ (Scores.targetFPS b) Hf)) as H1.
  pose proof (Hmax _ (Hpos _ (Scores.maxMemoryMB b) Hm)) as H2.
  pose proof (Hmax _ (Hpos _ (Scores.maxDrawCalls b) Hd)) as H3.
  pose proof (Hmax _ (Hpos _ (Scores.maxTriangles b) Ht)) as H4.
  set (a1 := Qmin _ 1) in *. set (a2 := Qmax (1 - Scores.memoryUsage m / _) 0) in *.
  set (a3 := Qmax (1 - Scores.drawCalls m / _) 0) in *.
  set (a4 := Qmax (1 - Scores.triangles m / _) 0) in *.
  split.
  - apply Qfloor_nonneg. lra.
  - change 100%Z with (Qfloor (100 + (1 # 2))). apply Qfloor_resp_le. lra.
Qed.

Lemma performance_score_bounded_witness :
  let m := Scores.mkMetrics 58 17 300 150 80000 0 0 in
  let b := Scores.mkBudget 60 512 200 100000 3000 in
  (0 <= Scores.getPerformanceScore m b <= 100)%Z.
Proof.
  intros m b. apply performance_score_bounded; unfold Qle; simpl; lia.
Defined.

Lemma fold_min_bound (xs : list Q) x0 :
  fold_left Qmin xs x0 <= x0 /\ Forall (fun y => fold_left Qmin xs x0 <= y) xs.
Proof.
  revert x0. induction xs as [|y ys IH]; intros x0; simpl; [split; [apply Qle_refl | constructor]|].
  destruct (IH (Qmin x0 y)) as [H1 H2]. split; [|constructor; [|exact H2]].
  - apply Qle_trans with (Qmin x0 y); [exact H1 | apply Q.le_min_l].
  - apply Qle_trans with (Qmin x0 y); [exact H1 | apply Q.le_min_r].
Qed.

Lemma fold_max_bound (xs : list Q) x0 :
  x0 <= fold_left Qmax xs x0 /\ Forall (fun y => y <= fold_left Qmax xs x0) xs.
Proof.
  revert x0. induction xs as [|y ys IH]; intros x0; simpl; [split; [apply Qle_refl | constructor]|].
  destruct (IH (Qmax x0 y)) as [H1 H2]. split; [|constructor; [|exact H2]].
  - apply Qle_trans with (Qmax x0 y); [apply Q.le_max_l | exact H1].
  - apply Qle_trans with (Qmax x0 y); [apply Q.le_max_r | exact H1].
Qed.

Lemma inject_S (n : nat) :
  inject_Z (Z.of_nat (S n)) == inject_Z (Z.of_nat n) + 1.
Proof. rewrite Nat2Z.inj_succ, <- Z.add_1_r, inject_Z_plus. reflexivity. Qed.

Lemma sum_lower (f : Scores.PerformanceMetrics -> Q) l a lo :
  Forall (fun r => lo <= f r) l ->
  a + inject_Z (Z.of_nat (length l)) * lo <= fold_left (fun s r => s + f r) l a.
Proof.
  revert a. induction l as [|r l IH]; intros a Hl; cbn [fold_left].
  - assert (E : inject_Z (Z.of_nat (length (@nil Scores.PerformanceMetrics))) * lo == 0)
      by (change (inject_Z (Z.of_nat (length (@nil Scores.PerformanceMetrics)))) with 0; ring).
    lra.
  - inversion Hl as [|? ? Hr Hrest]; subst.
    specialize (IH (a + f r) Hrest).
    change (Z.of_nat (length (r :: l))) with (Z.of_nat (S (length l))).
    rewrite inject_S. lra.
Qed.

Lemma sum_upper (f : Scores.PerformanceMetrics -> Q) l a hi :
  Forall (fun r => f r <= hi) l ->
  fold_left (fun s r => s + f r) l a <= a + inject_Z (Z.of_nat (length l)) * hi.
Proof.
  revert a. induction l as [|r l IH]; intros a Hl; cbn [fold_left].
  - assert (E : inject_Z (Z.of_nat (length (@nil Scores.PerformanceMetrics))) * hi == 0)
      by (change (inject_Z (Z.of_nat (length (@nil Scores.PerformanceMetrics)))) with 0; ring).
    lra.
  - inversion Hl as [|? ? Hr Hrest]; subst.
    specialize (IH (a + f r) Hrest).
    change (Z.of_nat (length (r :: l))) with (Z.of_nat (S (length l))).
    rewrite inject_S. lra.
Qed.


Lemma avg_bounds (f : Scores.PerformanceMetrics -> Q) r rest :
  let n := inject_Z (Z.of_nat (length (r :: rest))) in
  Scores.list_min (f r) (map f rest) <= Scores.sum f (r :: rest) / n /\
  Scores.sum f (r :: rest) / n <= Scores.list_max (f r) (map f rest).
Proof.
  intros n.
  assert (Hn : 0 < n).
  { unfold n. change 0 with (inject_Z 0). rewrite <- Zlt_Qlt. simpl. lia. }
  destruct (fold_min_bound (map f rest) (f r)) as [Hm0 Hm].
  destruct (fold_max_bound (map f rest) (f r)) as [HM0 HM].
  unfold Scores.list_min, Scores.list_max, Scores.sum.
  set (mn := fold_left Qmin (map f rest) (f r)) in *.
  set (mx := fold_left Qmax (map f rest) (f r)) in *.
  apply (proj1 (List.Forall_map f (fun y => mn <= y) rest)) in Hm.
  apply (proj1 (List.Forall_map f (fun y => y <= mx) rest)) in HM.
  pose proof (sum_lower f (r :: rest) 0 mn (@List.Forall_cons _ _ r rest Hm0 Hm)) as Hlo.
  pose proof (sum_upper f (r :: rest) 0 mx (@List.Forall_cons _ _ r rest HM0 HM)) as Hhi.
  fold n in Hlo, Hhi.
  set (t := fold_left (fun s r => s + f r) (r :: rest) 0) in *.
  split.
  - apply Qle_shift_div_l; [exact Hn | lra].
  - apply Qle_shift_div_r; [exact Hn | lra].
Qed.

(** X21: [analyzeResults] returns null exactly for an empty result list;
    otherwise the rounded average FPS lies between the rounded minimum and
    maximum FPS, and the rounded average memory is at most the rounded
    maximum memory. *)
Theorem analyze_results_ordered :
  forall (results : list Scores.PerformanceMetrics) (duration : Q),
  (Scores.analyzeResults results duration = None <-> results = []) /\
  (forall a, Scores.analyzeResults results duration = Some a ->
   (Scores.fpsMin a <= Scores.fpsAvg a)%Z /\ (Scores.fpsAvg a <= Scores.fpsMax a)%Z /\
   (Scores.memoryAvg a <= Scores.memoryMax a)%Z).
Proof.
  intros [|r rest] d; simpl.
  - split; [tauto | discriminate].
  - split; [split; discriminate|]. intros a Ha. injection Ha as <-. simpl.
    destruct (avg_bounds Scores.fps r rest) as [H1 H2].
    destruct (avg_bounds Scores.memoryUsage r rest) as [_ H4].
    unfold Scores.round. repeat split; apply Qfloor_resp_le; simpl in *; lra.
Qed.

(** *** Graphics probes *)

Lemma checkWebGL_not_both env :
  Probe.webgl1 (Probe.checkWebGLSupport env) && Probe.webgl2 (Probe.checkWebGLSupport env) = false.
Proof.
  unfold Probe.checkWebGLSupport, Probe.getContext.
  destruct (Probe.contextSupport env "webgl2"), (Probe.contextSupport env "webgl"),
    (Probe.contextSupport env "experimental-webgl"); reflexivity.
Qed.

Lemma checkWebGL_webgl2_ok env g :
  Probe.contextSupport env "webgl2" = Probe.CtxOk g ->
  Probe.webgl1 (Probe.checkWebGLSupport env) = false /\
  Probe.webgl2 (Probe.checkWebGLSupport env) = true.
Proof.
  intros H. unfold Probe.checkWebGLSupport, Probe.getContext. rewrite H. split; reflexivity.
Qed.

(** X22: neither graphics probe ever reports both generations. Both ask
    for the two context kinds on a single canvas, and a canvas that holds
    one kind returns [null] for the other. [checkWebGLSupport] asks for
    ["webgl2"] first, so it reports [webgl1 = false] on every browser that
    can create a WebGL 2 context. *)
Theorem webgl_probes_never_both :
  forall env : Probe.Env,
  Probe.webgl1 (Probe.checkWebGLSupport env) && Probe.webgl2 (Probe.checkWebGLSupport env) = false /\
  (forall g, Probe.contextSupport env "webgl2" = Probe.CtxOk g ->
   Probe.webgl1 (Probe.checkWebGLSupport env) = false /\
   Probe.webgl2 (Probe.checkWebGLSupport env) = true) /\
  (forall w, Probe.getWebGLSupport env = Normal w -> Probe.webgl1 w && Probe.webgl2 w = false).
Proof.
  intros env. split; [apply checkWebGL_not_both|]. split; [intros g; apply checkWebGL_webgl2_ok|].
  intros w H. unfold Probe.getWebGLSupport, Probe.getContext in H.
  destruct (Probe.contextSupport env "webgl"), (Probe.contextSupport env "webgl2");
    cbn in H; try discriminate; injection H as <-; reflexivity.
Qed.

Lemma androidNoMobile_includes s :
  Probe.androidNoMobile s = true -> Probe.includes s "android" = true.
Proof.
  induction s as [|c rest IH]; [discriminate|]. intros H.
  cbn [Probe.androidNoMobile] in H. cbn [Probe.includes].
  apply orb_true_iff in H as [H | H].
  - apply andb_true_iff in H as [H _]. rewrite H. reflexivity.
  - rewrite (IH H). apply orb_true_r.
Qed.

Lemma tablet_is_mobile ua : Probe.isTabletRe ua = true -> Probe.isMobileRe ua = true.
Proof.
  unfold Probe.isTabletRe, Probe.isMobileRe. intros H. apply existsb_exists.
  apply orb_true_iff in H as [H | H].
  - exists "ipad"%string. split; [right; right; right; left; reflexivity | exact H].
  - exists "android"%string. split; [left; reflexivity | apply androidNoMobile_includes, H].
Qed.

(** X23: [deviceCapabilities.getDeviceType] answers desktop exactly when
    the lower-cased user agent matches none of the mobile patterns: every
    tablet user agent also matches the mobile expression, so the tablet
    test never hides a mobile match. *)
Theorem device_type_desktop_iff :
  forall env : Probe.Env,
  Probe.getDeviceType env = Probe.desktop <->
  Probe.isMobileRe (Probe.toLowerCase (Probe.userAgent env)) = false.
Proof.
  intros env. unfold Probe.getDeviceType.
  set (ua := Probe.toLowerCase (Probe.userAgent env)).
  destruct (Probe.isTabletRe ua) eqn:Et.
  - rewrite (tablet_is_mobile ua Et). split; discriminate.
  - destruct (Probe.isMobileRe ua); split; (discriminate || reflexivity).
Qed.

(** *** [BrowserCompatibilityChecker] *)

Definition crit (i : Compat.Issue) : bool := Compat.Severity_eqb (Compat.severity i) Compat.critical.

Definition penalty (i : Compat.Issue) : Z :=
  match Compat.severity i with Compat.critical => 30 | Compat.warning => 15 | Compat.info => 5 end.

Definition total_penalty (l : list Compat.Issue) : Z :=
  fold_right (fun i a => (penalty i + a)%Z) 0%Z l.

Lemma detect_fields be :
  Compat.webglSupport (Compat.detectBrowser be) = Probe.checkWebGLSupport (Compat.env be) /\
  Compat.features (Compat.detectBrowser be) = Compat.featureSupport be /\
  Compat.mobile (Compat.detectBrowser be) = Compat.mobileRe (Probe.userAgent (Compat.env be)).
Proof.
  unfold Compat.detectBrowser.
  match goal with |- context [match ?t with (_, _) => _ end] => destruct t as [[? ?] ?] end.
  repeat split.
Qed.

Lemma versions_no_crit bi : existsb crit (Compat.checkBrowserVersions bi) = false.
Proof.
  unfold Compat.checkBrowserVersions.
  destruct (Compat.minVersions (Compat.name bi)); [|reflexivity].
  destruct (Compat.parseInt _); [|reflexivity].
  destruct (_ && _); reflexivity.
Qed.

Lemma mobile_no_crit ua bi : existsb crit (Compat.checkMobileCompatibility ua bi) = false.
Proof.
  unfold Compat.checkMobileCompatibility.
  match goal with |- context [if ?b then _ else _] => destruct b end; reflexivity.
Qed.

Lemma crit_check ua bi :
  existsb crit (Compat.checkCompatibility ua bi) =
  negb (Probe.webgl1 (Compat.webglSupport bi)) || negb (Compat.es6 (Compat.features bi)).
Proof.
  unfold Compat.checkCompatibility. rewrite !existsb_app, versions_no_crit.
  destruct (Compat.mobile bi); [rewrite mobile_no_crit|];
  destruct (Probe.webgl1 _), (Compat.es6 _); cbn;
  repeat match goal with |- context [if ?b then _ else _] => destruct b end; reflexivity.
Qed.

Lemma warn_or_crit_check ua bi :
  Probe.webgl1 (Compat.webglSupport bi) && Probe.webgl2 (Compat.webglSupport bi) = false ->
  exists i, In i (Compat.checkCompatibility ua bi) /\
            (Compat.severity i = Compat.critical \/ Compat.severity i = Compat.warning).
Proof.
  intros H. unfold Compat.checkCompatibility.
  destruct (Probe.webgl1 _) eqn:E1.
  - destruct (Probe.webgl2 _); [discriminate|].
    exists (Compat.mkIssue Compat.warning "WebGL 2"). split; [|right; reflexivity].
    apply in_or_app. right. left. reflexivity.
  - exists (Compat.mkIssue Compat.critical "WebGL"). split; [|left; reflexivity].
    left. reflexivity.
Qed.

Lemma isCompatible_construct be :
  Compat.isCompatible (Compat.construct be) =
  Probe.webgl1 (Probe.checkWebGLSupport (Compat.env be)) && Compat.es6 (Compat.featureSupport be).
Proof.
  unfold Compat.isCompatible, Compat.construct. cbn [Compat.issues].
  change (fun i => Compat.Severity_eqb (Compat.severity i) Compat.critical) with crit.
  rewrite crit_check. destruct (detect_fields be) as [-> [-> _]].
  destruct (Probe.webgl1 _), (Compat.es6 _); reflexivity.
Qed.

Lemma score_fold l s :
  fold_left (fun s i => match Compat.severity i with
                        | Compat.critical => s - 30
                        | Compat.warning => s - 15
                        | Compat.info => s - 5
                        end%Z) l s = (s - total_penalty l)%Z.
Proof.
  revert s. induction l as [|i l IH]; intros s; cbn [fold_left]; [cbn; lia|].
  rewrite IH. change (total_penalty (i :: l)) with (penalty i + total_penalty l)%Z.
  unfold penalty. destruct (Compat.severity i); lia.
Qed.

Lemma penalty_nonneg i : (0 <= penalty i)%Z.
Proof. unfold penalty. destruct (Compat.severity i); lia. Qed.

Lemma total_penalty_nonneg l : (0 <= total_penalty l)%Z.
Proof.
  induction l as [|i l IH]; unfold total_penalty in *; cbn [fold_right]; [lia|].
  pose proof (penalty_nonneg i). lia.
Qed.

Lemma total_penalty_in l i :
  In i l -> (penalty i <= total_penalty l)%Z.
Proof.
  induction l as [|j l IH]; intros Hin; [destruct Hin|].
  pose proof (total_penalty_nonneg l) as H0. pose proof (penalty_nonneg j) as Hj.
  unfold total_penalty in *; cbn [fold_right].
  destruct Hin as [-> | Hin]; [lia|]. specialize (IH Hin). lia.
Qed.

(** X24: the checker built in a browser is compatible exactly when the
    probe found a WebGL 1 context and ES6 is supported; the version,
    mobile, texture, pointer-lock and audio checks never add a critical
    issue. Because of the ["webgl2"]-first probe, a browser that can create
    a WebGL 2 context is never compatible. *)
Theorem compat_construct_isCompatible :
  forall be : Compat.BrowserEnv,
  Compat.isCompatible (Compat.construct be) =
  Probe.webgl1 (Probe.checkWebGLSupport (Compat.env be)) && Compat.es6 (Compat.featureSupport be) /\
  (forall g, Probe.contextSupport (Compat.env be) "webgl2" = Probe.CtxOk g ->
   Compat.isCompatible (Compat.construct be) = false).
Proof.
  intros be. rewrite isCompatible_construct. split; [reflexivity|].
  intros g Hg. destruct (checkWebGL_webgl2_ok _ g Hg) as [-> _]. reflexivity.
Qed.

(** X25: [getCompatibilityScore] lies between 0 and 100 for every
    checker state, and is 0 when no browser information was collected.
    A checker built in a browser always scores at most 85: it always
    carries either the critical WebGL issue or the WebGL 2 warning. *)
Theorem compat_score_bounds :
  forall c : Compat.Checker,
  (0 <= Compat.getCompatibilityScore c <= 100)%Z /\
  (Compat.browserInfo c = None -> Compat.getCompatibilityScore c = 0%Z) /\
  (forall be, c = Compat.construct be -> (Compat.getCompatibilityScore c <= 85)%Z).
Proof.
  intros c. unfold Compat.getCompatibilityScore. rewrite score_fold.
  pose proof (total_penalty_nonneg (Compat.issues c)) as H0.
  split; [destruct (Compat.browserInfo c); lia|].
  split; [intros ->; reflexivity|].
  intros be ->. cbn [Compat.browserInfo Compat.issues Compat.construct].
  destruct (detect_fields be) as [Hw _].
  assert (Hnb : Probe.webgl1 (Compat.webglSupport (Compat.detectBrowser be)) &&
                Probe.webgl2 (Compat.webglSupport (Compat.detectBrowser be)) = false)
    by (rewrite Hw; apply checkWebGL_not_both).
  destruct (warn_or_crit_check (Probe.userAgent (Compat.env be)) _ Hnb) as [i [Hin Hs]].
  pose proof (total_penalty_in _ _ Hin) as Hp. unfold penalty in Hp.
  destruct Hs as [Hs | Hs]; rewrite Hs in Hp; lia.
Qed.

Lemma count_severity_zero s l :
  Compat.count_severity s l = 0%nat <->
  existsb (fun i => Compat.Severity_eqb (Compat.severity i) s) l = false.
Proof.
  unfold Compat.count_severity. induction l as [|i l IH]; [split; reflexivity|].
  cbn. destruct (Compat.Severity_eqb _ s); cbn; [split; discriminate | exact IH].
Qed.

Lemma warning_counted i l :
  In i l -> Compat.severity i = Compat.warning -> (0 < Compat.count_severity Compat.warning l)%nat.
Proof.
  unfold Compat.count_severity. intros Hin Hs. destruct (List.filter _ l) eqn:E.
  - exfalso. assert (Hf : In i (List.filter (fun i => Compat.Severity_eqb (Compat.severity i) Compat.warning) l))
      by (apply List.filter_In; split; [exact Hin | rewrite Hs; reflexivity]).
    rewrite E in Hf. destruct Hf.
  - cbn. lia.
Qed.

(** X26: with browser information present, [getRecommendedSettings]
    returns null exactly when the checker is not compatible; a mobile
    browser gets the low preset. For a checker built in a browser the
    high preset is never recommended: the probe cannot report both WebGL
    generations, so there is always a critical issue or a warning. *)
Theorem recommended_settings_cases :
  forall c : Compat.Checker,
  (Compat.browserInfo c <> None ->
   (Compat.getRecommendedSettings c = None <-> Compat.isCompatible c = false)) /\
  (forall bi s, Compat.browserInfo c = Some bi -> Compat.mobile bi = true ->
   Compat.getRecommendedSettings c = Some s -> Compat.quality s = low) /\
  (forall be s, c = Compat.construct be -> Compat.getRecommendedSettings c = Some s ->
   Compat.quality s <> high).
Proof.
  intros c. unfold Compat.getRecommendedSettings, Compat.isCompatible.
  pose proof (count_severity_zero Compat.critical (Compat.issues c)) as Hz.
  split; [|split].
  - intros Hbi. destruct (Compat.browserInfo c) as [bi|]; [|contradiction].
    destruct (Compat.count_severity Compat.critical (Compat.issues c)) as [|k] eqn:E.
    + rewrite (proj1 Hz eq_refl). cbn.
      repeat match goal with |- context [if ?b then _ else _] => destruct b end;
        split; discriminate.
    + destruct (existsb (fun i => Compat.Severity_eqb (Compat.severity i) Compat.critical)
                  (Compat.issues c)) eqn:Ex.
      * cbn. split; reflexivity.
      * discriminate (proj2 Hz eq_refl).
  - intros bi s Hbi Hm. rewrite Hbi, Hm, orb_true_r.
    destruct (0 <? _)%nat; [discriminate|]. intros H. injection H as <-. reflexivity.
  - intros be s ->. cbn [Compat.browserInfo Compat.construct Compat.issues].
    destruct (detect_fields be) as [Hw _].
    assert (Hnb : Probe.webgl1 (Compat.webglSupport (Compat.detectBrowser be)) &&
                  Probe.webgl2 (Compat.webglSupport (Compat.detectBrowser be)) = false)
      by (rewrite Hw; apply checkWebGL_not_both).
    set (l := Compat.checkCompatibility (Probe.userAgent (Compat.env be)) (Compat.detectBrowser be)).
    destruct (warn_or_crit_check (Probe.userAgent (Compat.env be)) _ Hnb) as [i [Hin Hs]].
    fold l in Hin.
    destruct (0 <? Compat.count_severity Compat.critical l)%nat eqn:Ec; [discriminate|].
    destruct Hs as [Hs | Hs].
    + exfalso. apply Nat.ltb_ge in Ec.
      assert (Hc : (0 < Compat.count_severity Compat.critical l)%nat).
      { unfold Compat.count_severity. destruct (List.filter _ l) eqn:E.
        - assert (Hf : In i (List.filter (fun i => Compat.Severity_eqb (Compat.severity i) Compat.critical) l))
            by (apply List.filter_In; split; [exact Hin | rewrite Hs; reflexivity]).
          rewrite E in Hf. destruct Hf.
        - cbn. lia. }
      lia.
    + pose proof (warning_counted i l Hin Hs) as Hw'.
      destruct (_ || _); [intros H; injection H as <-; discriminate|].
      apply Nat.ltb_lt in Hw'. rewrite Hw'. intros H; injection H as <-; discriminate.
Qed.

(** *** Quality presets and texture settings *)

(** X27: the [qualitySettings] presets agree with [lodSystem]: each
    preset's particle multiplier is the one [getParticleCount] uses, its
    shadow-map size is [getShadowMapSize] of the same tier, and its shadow
    quality is the tier itself. Texture compression is used exactly below
    the high tier. Shadow-map size, anisotropy, draw distance and both LOD
    distances never decrease from a lower tier to a higher one. *)
Theorem presets_consistent_monotone :
  forall q : Quality,
  Presets.particleMultiplier (Presets.qualitySettings q) = LodSystem.multiplier q /\
  Presets.shadowMapSize (Presets.qualitySettings q) = LodSystem.getShadowMapSize q /\
  Presets.shadowQuality (Presets.qualitySettings q) = q /\
  Presets.shouldUseCompression q = negb (Quality_eqb q high) /\
  (forall q', (detail q <= detail q')%nat ->
   (LodSystem.getShadowMapSize q <= LodSystem.getShadowMapSize q')%Z /\
   (Presets.getAnisotropy q <= Presets.getAnisotropy q')%Z /\
   Presets.maxDrawDistance (Presets.qualitySettings q)
     <= Presets.maxDrawDistance (Presets.qualitySettings q') /\
   Forall2 Qle (Presets.lodDistance (Presets.qualitySettings q))
               (Presets.lodDistance (Presets.qualitySettings q'))).
Proof.
  intros q. split; [|split; [|split; [|split]]]; try (destruct q; reflexivity).
  intros q' Hd. destruct q, q'; cbn in Hd; try lia; cbn;
    repeat split; repeat constructor; unfold Qle; cbn; lia.
Qed.

(** *** Network quality *)

(** X28: [networkMonitor.shouldReduceAssetQuality] and the wrapper's
    [detectConnectionSpeed] read the same connection object. When it has
    a non-empty [effectiveType], assets are reduced exactly when
    [saveData] is set or the wrapper rates the connection slow. Without
    [effectiveType] the monitor ignores [connection.type], which the
    wrapper falls back to, and only [saveData] counts. Without a
    connection object nothing is reduced. *)
Theorem network_reduce_vs_speed :
  forall (env : Probe.Env) (conn : Network.Connection),
  Probe.connectionType env = Network.wrapperConnectionType (Some conn) ->
  (forall s, Network.effectiveType conn = Some s -> s <> ""%string ->
   (Network.shouldReduceAssetQuality (Some conn) = true <->
    Network.bool_orfalse (Network.saveData conn) = true \/
    Probe.detectConnectionSpeed env = Probe.slow)) /\
  (Network.effectiveType conn = None ->
   Network.shouldReduceAssetQuality (Some conn) = Network.bool_orfalse (Network.saveData conn)) /\
  Network.shouldReduceAssetQuality None = false.
Proof.
  intros env conn H. unfold Probe.detectConnectionSpeed. rewrite H.
  unfold Network.wrapperConnectionType, Network.shouldReduceAssetQuality,
    Network.getConnectionInfo. cbn [option_map Network.info_saveData Network.info_effectiveType].
  split; [|split; [|reflexivity]].
  - intros s Hs Hne. apply String.eqb_neq in Hne.
    assert (E : forall d, Network.str_or (Some s) d = s)
      by (intros d; unfold Network.str_or; rewrite Hne; reflexivity).
    rewrite Hs, !E.
    destruct (Network.bool_orfalse _), (String.eqb s "slow-2g"), (String.eqb s "2g"),
      (String.eqb s "3g"); cbn; intuition congruence.
  - intros Hn. unfold Network.str_or at 1. rewrite Hn. cbn.
    destruct (Network.bool_orfalse _); reflexivity.
Qed.

Lemma network_reduce_vs_speed_witness :
  let conn := Network.mkConnection None (Some "2g"%string) None None None in
  let env := Probe.mkEnv "" (fun _ => Probe.CtxNull) false 1024 768 (Some "2g"%string) in
  Probe.connectionType env = Network.wrapperConnectionType (Some conn) /\
  Probe.detectConnectionSpeed env = Probe.slow /\
  Network.shouldReduceAssetQuality (Some conn) = false.
Proof.
  intros conn env.
  assert (H : Probe.connectionType env = Network.wrapperConnectionType (Some conn)) by reflexivity.
  split; [exact H|]. split; [reflexivity|].
  destruct (network_reduce_vs_speed env conn H) as [_ [Hn _]].
  rewrite (Hn eq_refl). reflexivity.
Defined.
